(** * AI security surveillance: the per-camera frame pipeline

    A shallow embedding of [video_processor.py] (class [VideoProcessor]) and of
    the parts of [main.py] that call into it (the global dictionaries and the
    routes [set_ip], [upload_file], [close_camera] and the frame consumer of
    [test_feed]), followed by the properties of the pipeline that the
    specification states.

    Conventions of the embedding.
    - Python [int] is [Z] (unbounded, no wrap-around).
    - Python [float] is IEEE binary64, which is the kernel's primitive [float];
      arithmetic and comparisons are the primitive ones, so the float
      expressions of the source evaluate here to the very bits CPython
      computes.
    - A call that may raise returns a [result]; an uncaught exception
      propagates through [mbind] as it does through Python statements.
    - Objects that are shared by reference (the status dictionaries, the
      frame queues) live in explicit stores and are named by their address.
    - One pass of a worker through its loop, and one request, are atomic
      steps; [status_lock], which only guards blocks that are atomic here,
      has no state.
    - [print] calls change no state and are left out; so are the
      [time.sleep] calls between two passes, whose delays ([0.033], and
      [1 / fps] for the frame rate a capture reports) are taken to be valid
      sleep lengths. *)

From Stdlib Require Import ZArith Floats Uint63 Bool.
From stdpp Require Import base option list gmap strings pretty.

Open Scope Z_scope.

(* Decimal float literals denote the nearest binary64 value, as in Python. *)
#[global] Set Warnings "-inexact-float".

(** ** Exceptions and results *)

(** The exceptions the model distinguishes.  [Error what] stands for any
    other subclass of [Exception] raised by a library (for instance
    [cv2.error] or a [RuntimeError] of the inference engine). *)
Inductive exn :=
  | ValueError
  | OverflowError
  | ZeroDivisionError
  | KeyError
  | QueueEmpty
  | Error (what : string).

(** Outcome of a call: it returns, it raises, or it never comes back (a
    blocking [Queue.get] or [Queue.put] that waits, an inference that
    hangs). *)
Inductive result (A : Type) :=
  | Return (a : A)
  | Raise (e : exn)
  | Waits.
Arguments Return {A} a.
Arguments Raise {A} e.
Arguments Waits {A}.

#[global] Instance result_ret : MRet result := fun A a => Return a.
#[global] Instance result_bind : MBind result := fun A B k m =>
  match m with
  | Return a => k a
  | Raise e => Raise e
  | Waits => Waits
  end.
#[global] Instance result_fmap : FMap result := fun A B f m =>
  match m with
  | Return a => Return (f a)
  | Raise e => Raise e
  | Waits => Waits
  end.

(** ** Python numbers *)

(** The binary64 value nearest to an int (ties to even), an infinity when
    the int is too large. *)
Definition double_of_int (z : Z) : float :=
  SF2Prim (binary_normalize prec emax z 0 false).

(** [float(z)], and the conversion of the int operand of [z * x] for a
    float [x]: the nearest binary64 value; [OverflowError] when it is too
    large for a float. *)
Definition float_of_int (z : Z) : result float :=
  let x := double_of_int z in
  if is_infinity x then Raise OverflowError else Return x.

(** [int(x)] for a float: truncation toward zero; [ValueError] on a NaN and
    [OverflowError] on an infinity. *)
Definition int_of_float (x : float) : result Z :=
  match Prim2SF x with
  | S754_zero _ => Return 0
  | S754_infinity _ => Raise OverflowError
  | S754_nan => Raise ValueError
  | S754_finite s m e =>
      let magnitude :=
        match e with
        | Zneg p => Z.shiftr (Zpos m) (Zpos p)
        | _ => Z.shiftl (Zpos m) e
        end in
      Return (if s then - magnitude else magnitude)
  end.

(** The quotient of two ints rounded once, to the nearest binary64 value
    (ties to even), with the sign of the quotient when it is a zero. *)
Definition rounded_quotient (a b : Z) : spec_float :=
  let negate := xorb (a <? 0) (b <? 0) in
  if a =? 0 then S754_zero negate
  else
    let '(q, e, l) := SFdiv_core_binary prec emax (Z.abs a) 0 (Z.abs b) 0 in
    binary_round_aux prec emax negate q e l.

(** [a / b] on ints (true division), as CPython computes it:
    [ZeroDivisionError] when [b] is zero; when both operands are below
    [2^53] in magnitude, the division of the two converted operands, which
    are exact; otherwise the quotient of the ints rounded once, and
    [OverflowError] when it is too large for a float. *)
Definition true_div (a b : Z) : result float :=
  if b =? 0 then Raise ZeroDivisionError
  else if (Z.abs a <? 2 ^ 53) && (Z.abs b <? 2 ^ 53)
  then Return (double_of_int a / double_of_int b)%float
  else match rounded_quotient a b with
       | S754_infinity _ => Raise OverflowError
       | x => Return (SF2Prim x)
       end.

(** [x > y] and [x < y] on floats; both are false when an operand is NaN. *)
Definition float_gt (x y : float) : bool := PrimFloat.ltb y x.
Definition float_lt (x y : float) : bool := PrimFloat.ltb x y.

(** [z > x] for an int [z] and a float [x], as CPython computes it: the
    comparison of the converted int when [z] has at most 48 bits (the
    conversion is exact), and otherwise the comparison of the two numbers as
    they are, with no rounding. *)
Definition int_gt_float (z : Z) (x : float) : bool :=
  if Z.abs z <? 2 ^ 48 then float_gt (double_of_int z) x
  else match Prim2SF x with
       | S754_nan => false
       | S754_infinity s => s
       | S754_zero _ => 0 <? z
       | S754_finite s m e =>
           let v := if s then Z.neg m else Z.pos m in
           match e with
           | Zneg p => v <? Z.shiftl z (Zpos p)
           | _ => Z.shiftl v e <? z
           end
       end.

(** ** [queue.Queue] *)

Module Queue.

(** [queue.Queue(maxsize)]: a FIFO of at most [maxsize] items when
    [maxsize > 0], unbounded otherwise.  The head of [items] is the oldest
    entry. *)
Record t (A : Type) := mk { maxsize : Z; items : list A }.
Arguments mk {A} maxsize items.
Arguments maxsize {A} _.
Arguments items {A} _.

Section Operations.
Context {A : Type}.

Definition new (maxsize : Z) : t A := mk maxsize [].

Definition qsize (q : t A) : Z := Z.of_nat (length (items q)).

Definition empty (q : t A) : bool := qsize q =? 0.

Definition full (q : t A) : bool :=
  (0 <? maxsize q) && (maxsize q <=? qsize q).

(** [get()] with the default [block=True]: the caller waits while the
    queue is empty. *)
Definition get (q : t A) : result (A * t A) :=
  match items q with
  | [] => Waits
  | x :: rest => Return (x, mk (maxsize q) rest)
  end.

(** [get_nowait()]: raises [queue.Empty] instead of waiting. *)
Definition get_nowait (q : t A) : result (A * t A) :=
  match items q with
  | [] => Raise QueueEmpty
  | x :: rest => Return (x, mk (maxsize q) rest)
  end.

(** [get(timeout=t)]: [queue.Empty] is raised when the queue is still empty
    after [t] seconds.  Time is not measured: an item that arrives during the
    wait is a push that comes before this call. *)
Definition get_timeout (timeout : Z) (q : t A) : result (A * t A) :=
  get_nowait q.

(** [put(x)] with the default [block=True]: the caller waits while the
    queue is full. *)
Definition put (x : A) (q : t A) : result (t A) :=
  if full q then Waits else Return (mk (maxsize q) (items q ++ [x])).

End Operations.
End Queue.

(** The worker's push, the last statements of both processing loops:
<<
    if self.frame_queue.full():
        self.frame_queue.get()
    self.frame_queue.put(processed_frame)
>> *)
Definition enqueue {A} (frame_queue : Queue.t A) (processed_frame : A)
  : result (Queue.t A) :=
  frame_queue ← (if Queue.full frame_queue
                 then snd <$> Queue.get frame_queue
                 else Return frame_queue);
  Queue.put processed_frame frame_queue.

(** [for x in xs: body] over a loop state, for a body that may raise. *)
Fixpoint for_each {A S : Type} (xs : list A) (body : A → S → result S) (s : S)
  : result S :=
  match xs with
  | [] => Return s
  | x :: rest => s ← body x s; for_each rest body s
  end.

(** ** Frames and what is drawn on them *)

Definition point : Type := Z * Z.
Definition color : Type := Z * Z * Z.

(** The strings that are drawn.  An f-string that formats a float is kept
    unformatted: the constructor fixes the format and its arguments are the
    values that are formatted. *)
Inductive text :=
  | Str (s : string)
  | PersonLabel (number : Z) (conf : float)
      (* f"Person {detection['id']+1}: {conf:.2f}" *)
  | AvgMax (avg_count : float) (max_people_count : Z).
      (* f"Avg: {avg_count:.1f} | Max: {self.max_people_count}" *)

(** The picture an array was created with. *)
Inductive pixels :=
  | Decoded (k : N)   (* the k-th picture a decoder delivered *)
  | Zeros.            (* np.zeros(...) *)

(** A numpy image: its [shape[:2]], the picture it started from, and the
    drawing calls applied to it since, oldest first. *)
Record image (op : Type) := Image {
  shape : Z * Z;            (* (height, width) *)
  source : pixels;
  drawn : list op
}.
Arguments Image {op} shape source drawn.
Arguments shape {op} _.
Arguments source {op} _.
Arguments drawn {op} _.

#[warnings="-register-all"] Inductive draw_op :=
  | Fill (c : color)                                     (* frame[:] = c *)
  | Rectangle (pt1 pt2 : point) (c : color) (thickness : Z)
  | PutText (t : text) (org : point) (fontScale : float) (c : color)
      (thickness : Z)
  | AddWeighted (src1 : image draw_op) (alpha beta gamma : float).
      (* cv2.addWeighted(src1, alpha, frame, beta, gamma, frame) *)

Definition ndarray : Type := image draw_op.

(** ** Detections *)

Definition bounding_box : Type := Z * Z * Z * Z.   (* [x1, y1, x2, y2] *)

Module Detection.
(** The dictionary [{'bbox': ..., 'confidence': ..., 'id': ...}]. *)
Record t := mk { bbox : bounding_box; confidence : float; id : Z }.
End Detection.

(** One element of [result.boxes] of the detector: [box.cls[0]],
    [box.conf[0]] and [box.xyxy[0]]. *)
Record yolo_box := Box {
  cls : float;
  conf : float;
  xyxy : float * float * float * float
}.

(** One element of the detector's answer; [boxes] may be [None]. *)
Record yolo_result := YoloResult { boxes : option (list yolo_box) }.

(** A loaded model: called on a frame it answers, raises or hangs. *)
Definition yolo : Type := ndarray → result (list yolo_result).

(** ** The world outside the program *)

(** [cv2.VideoCapture]: whether it is opened, the frame rate it reports, and
    the frames it has still to deliver. *)
Record VideoCapture := Capture {
  isOpened : bool;
  CAP_PROP_FPS : float;
  pending : list ndarray
}.

Record environment := Environment {
  (** [YOLO('yolov8n.pt')]: the model, or the exception of a failed load *)
  YOLO : exn + yolo;
  (** whether a drawing call on an image raises, and what *)
  cv2_raises : draw_op → ndarray → option exn;
  (** [cv2.VideoCapture(file_path)] *)
  open_capture : string → VideoCapture;
  (** the k-th value of [np.random.random()] *)
  random : nat → float;
  (** [t.strftime(format)] and [t.isoformat()] of an instant *)
  strftime : string → Z → string;
  isoformat : Z → string
}.

(** A drawing call of [cv2] on [img] (in place). *)
Definition cv2_call (env : environment) (op : draw_op) (img : ndarray)
  : result ndarray :=
  match cv2_raises env op img with
  | Some e => Raise e
  | None => Return (Image (shape img) (source img) (drawn img ++ [op]))
  end.

(** ** Shared objects *)

(** The values stored in a status dictionary. *)
Inductive pyval :=
  | PNone
  | PStr (s : string)
  | PInt (z : Z)
  | PBool (b : bool).

Definition loc : Type := nat.   (* the address of a dict object *)

(** The objects reachable from several places: the status dictionaries,
    the four frame queues of [main.frame_queues] (a queue is named by its
    key there), the clock and the random generator.  Instants are counted:
    [clock] is the value the next [datetime.now()] returns. *)
Record store := Store {
  dicts : gmap loc (gmap string pyval);
  frame_queues : gmap Z (Queue.t ndarray);
  clock : Z;
  random_calls : nat
}.

Definition set_dicts (d : gmap loc (gmap string pyval)) (st : store) : store :=
  Store d (frame_queues st) (clock st) (random_calls st).
Definition set_frame_queues (q : gmap Z (Queue.t ndarray)) (st : store) : store :=
  Store (dicts st) q (clock st) (random_calls st).

(** [datetime.now()] *)
Definition now (st : store) : Z * store :=
  (clock st, Store (dicts st) (frame_queues st) (clock st + 1) (random_calls st)).

(** [np.random.random()] *)
Definition np_random (env : environment) (st : store) : float * store :=
  (random env (random_calls st),
   Store (dicts st) (frame_queues st) (clock st) (S (random_calls st))).

(** ** class VideoProcessor *)

(** The attributes of a processor.  [frame_queue] and [status] are
    references into the store; [status_lock] has no state of its own here:
    it is held by the worker that is inside the block it guards, which the
    state of the thread tells; [process_thread] is the index of the thread in
    the thread table. *)
Record VideoProcessor := Processor {
  camera_id : Z;
  frame_queue : Z;
  running : bool;
  process_thread : option nat;
  model : option yolo;
  status : loc;
  fall_history : list bounding_box;
  total_people_count : Z;
  max_people_count : Z;
  frame_count : Z
}.

Definition set_running (b : bool) (self : VideoProcessor) : VideoProcessor :=
  Processor (camera_id self) (frame_queue self) b (process_thread self)
    (model self) (status self) (fall_history self) (total_people_count self)
    (max_people_count self) (frame_count self).
Definition set_process_thread (t : option nat) (self : VideoProcessor)
  : VideoProcessor :=
  Processor (camera_id self) (frame_queue self) (running self) t
    (model self) (status self) (fall_history self) (total_people_count self)
    (max_people_count self) (frame_count self).
Definition set_status (l : loc) (self : VideoProcessor) : VideoProcessor :=
  Processor (camera_id self) (frame_queue self) (running self)
    (process_thread self) (model self) l (fall_history self)
    (total_people_count self) (max_people_count self) (frame_count self).
Definition set_counters (total maxi frames : Z) (self : VideoProcessor)
  : VideoProcessor :=
  Processor (camera_id self) (frame_queue self) (running self)
    (process_thread self) (model self) (status self) (fall_history self)
    total maxi frames.

(** [load_model]: a failed load leaves [self.model = None]. *)
Definition load_model (env : environment) : option yolo :=
  match YOLO env with
  | inr m => Some m
  | inl _ => None
  end.

(** [__init__]: [self.status = {}] is a new dictionary. *)
Definition init (env : environment) (camera_id : Z) (frame_queue : Z)
    (st : store) : VideoProcessor * store :=
  let l := fresh (dom (dicts st)) in
  (Processor camera_id frame_queue false None (load_model env) l [] 0 0 0,
   set_dicts (<[l := ∅]> (dicts st)) st).

(** [update_status]: rebinds [self.status] to the caller's dictionary. *)
Definition update_status (status : loc) (self : VideoProcessor)
  : VideoProcessor :=
  set_status status self.

(** The body of the [try] of [detect_people]. *)
Definition run_inference (model : yolo) (frame : ndarray)
  : result (Z * list Detection.t) :=
  results ← model frame;
  for_each results (λ result '(people_count, detections),
    match boxes result with
    | None => Return (people_count, detections)
    | Some boxes =>
        for_each boxes (λ box '(people_count, detections),
          cls ← int_of_float (cls box);
          let conf := conf box in
          if (cls =? 0) && float_gt conf 0.5 then
            let people_count := people_count + 1 in
            let '(a, b, c, d) := xyxy box in
            x1 ← int_of_float a;
            y1 ← int_of_float b;
            x2 ← int_of_float c;
            y2 ← int_of_float d;
            Return (people_count,
                    detections ++
                      [Detection.mk (x1, y1, x2, y2) conf
                         (Z.of_nat (length detections))])
          else Return (people_count, detections))
          (people_count, detections)
    end) (0, []).

(** [detect_people]: [except Exception] turns every exception of the body
    into the empty answer; an inference that hangs is not an exception. *)
Definition detect_people (self : VideoProcessor) (frame : ndarray)
  : result (ndarray * Z * list Detection.t) :=
  match model self with
  | None => Return (frame, 0, [])
  | Some model =>
      match run_inference model frame with
      | Return (people_count, detections) =>
          Return (frame, people_count, detections)
      | Raise _ => Return (frame, 0, [])
      | Waits => Waits
      end
  end.

(** [z * x] for an int [z] and a float [x]: the product of the converted
    int and [x]. *)
Definition int_mul_float (z : Z) (x : float) : result float :=
  y ← float_of_int z; Return (y * x)%float.

(** The loop of [detect_fall]; returning at a qualifying detection is the
    [break].  The operands of the [and]s are evaluated from left to right,
    as far as needed. *)
Fixpoint detect_fall_loop (frame : ndarray) (detections : list Detection.t)
    (fall_detected : bool) (fall_bbox : option bounding_box)
  : result (bool * option bounding_box) :=
  match detections with
  | [] => Return (fall_detected, fall_bbox)
  | detection :: rest =>
      let '(x1, y1, x2, y2) := Detection.bbox detection in
      let width := x2 - x1 in
      let height := y2 - y1 in
      if width >? 0 then
        aspect_ratio ← true_div height width;
        let '(frame_height, frame_width) := shape frame in
        bbox_center_y ← true_div (y1 + y2) 2;
        falls ← (if float_lt aspect_ratio 0.8 then
                   low ← int_mul_float frame_height 0.6;
                   if float_gt bbox_center_y low then
                     large ← int_mul_float frame_height 0.3;
                     Return (int_gt_float height large)
                   else Return false
                 else Return false);
        if falls : bool then Return (true, Some (Detection.bbox detection))
        else detect_fall_loop frame rest fall_detected fall_bbox
      else detect_fall_loop frame rest fall_detected fall_bbox
  end.

Definition detect_fall (self : VideoProcessor)
    (detections : list Detection.t) (frame : ndarray)
  : result (bool * option bounding_box) :=
  detect_fall_loop frame detections false None.

(** ** Methods that change the processor and the store *)

(** A method body: from the processor and the store to their new values and
    an outcome.  What was assigned before an exception stays assigned. *)
Definition method (A : Type) : Type :=
  VideoProcessor → store → VideoProcessor * store * result A.

#[global] Instance method_ret : MRet method := λ A a self st,
  (self, st, Return a).
#[global] Instance method_bind : MBind method := λ A B k m self st,
  match m self st with
  | (self, st, Return a) => k a self st
  | (self, st, Raise e) => (self, st, Raise e)
  | (self, st, Waits) => (self, st, Waits)
  end.

Definition lift {A} (r : result A) : method A := λ self st, (self, st, r).
Definition get_self : method VideoProcessor := λ self st, (self, st, Return self).
Definition put_self (self : VideoProcessor) : method unit :=
  λ _ st, (self, st, Return ()).
Definition get_store : method store := λ self st, (self, st, Return st).
Definition put_store (st : store) : method unit := λ self _, (self, st, Return ()).
Definition datetime_now : method Z := λ self st,
  let '(t, st) := now st in (self, st, Return t).

Definition white : color := (255, 255, 255).
Definition grey : color := (200, 200, 200).

(** [draw_statistics]: updates the counters, then draws the band on [frame]
    (in place; the drawn frame is returned). *)
Definition draw_statistics (env : environment) (frame : ndarray)
    (people_count : Z) (fall_detected : bool) : method ndarray :=
  let '(height, width) := shape frame in
  self ← get_self;
  let total_people_count := total_people_count self + people_count in
  let frame_count := frame_count self + 1 in
  let max_people_count := Z.max (max_people_count self) people_count in
  put_self (set_counters total_people_count max_people_count frame_count self);;
  let overlay := frame in
  overlay ← lift (cv2_call env (Rectangle (0, 0) (width, 80) (40, 44, 52) (-1))
                    overlay);
  frame ← lift (cv2_call env (AddWeighted overlay 0.7 0.3 0) frame);
  frame ← lift (cv2_call env
                  (PutText (Str ("Camera " +:+ pretty (camera_id self)))
                     (10, 30) 0.8 white 2) frame);
  let count_color : color :=
    if people_count <=? 10 then (0, 255, 0)
    else if people_count <=? 20 then (0, 165, 255)
    else (0, 0, 255) in
  frame ← lift (cv2_call env
                  (PutText (Str ("People: " +:+ pretty people_count))
                     (10, 60) 0.7 count_color 2) frame);
  frame ← (if fall_detected then
             frame ← lift (cv2_call env
                             (Rectangle (width / 2 - 150, 10)
                                (width / 2 + 150, 50) (0, 0, 255) (-1)) frame);
             lift (cv2_call env
                     (PutText (Str "FALL DETECTED!") (width / 2 - 120, 40)
                        0.9 white 2) frame)
           else mret frame);
  avg_count ← lift (true_div total_people_count (Z.max frame_count 1));
  frame ← lift (cv2_call env
                  (PutText (AvgMax avg_count max_people_count)
                     (width - 300, 60) 0.6 grey 1) frame);
  t ← datetime_now;
  let timestamp := strftime env "%Y-%m-%d %H:%M:%S" t in
  lift (cv2_call env (PutText (Str timestamp) (width - 250, 30) 0.6 grey 1)
          frame).

(** [draw_detections]: draws on a copy, which it returns. *)
Definition draw_detections (env : environment) (frame : ndarray)
    (detections : list Detection.t) (people_count : Z) (fall_detected : bool)
    (fall_bbox : option bounding_box) : method ndarray :=
  let frame_copy := frame in
  frame_copy ← lift (for_each detections (λ detection frame_copy,
    let '(x1, y1, x2, y2) := Detection.bbox detection in
    let conf := Detection.confidence detection in
    let color : color :=
      if fall_detected
         && bool_decide (Some (Detection.bbox detection) = fall_bbox)
      then (0, 0, 255) else (0, 255, 0) in
    frame_copy ← cv2_call env (Rectangle (x1, y1) (x2, y2) color 2) frame_copy;
    let label := PersonLabel (Detection.id detection + 1) conf in
    cv2_call env (PutText label (x1, y1 - 10) 0.5 color 2) frame_copy)
    frame_copy);
  draw_statistics env frame_copy people_count fall_detected.

(** The status update of both loops:
<<
    with self.status_lock:
        self.status['count'] = people_count
        self.status['fall'] = fall_detected
        self.status['timestamp'] = datetime.now().isoformat()
>> *)
Definition write_status (env : environment) (people_count : Z)
    (fall_detected : bool) : method unit :=
  self ← get_self;
  t ← datetime_now;
  st ← get_store;
  put_store (set_dicts
    (alter (λ d, <["timestamp" := PStr (isoformat env t)]>
                   (<["fall" := PBool fall_detected]>
                      (<["count" := PInt people_count]> d)))
       (status self) (dicts st)) st).

(** The push of both loops, on the queue [self.frame_queue] refers to (a
    reference always refers to a queue: the other branch is there for the
    lookup to be total). *)
Definition push_frame (processed_frame : ndarray) : method unit :=
  self ← get_self;
  st ← get_store;
  match frame_queues st !! frame_queue self with
  | None => lift (Raise KeyError)
  | Some q =>
      q ← lift (enqueue q processed_frame);
      put_store (set_frame_queues (<[frame_queue self := q]> (frame_queues st)) st)
  end.

(** The last three steps of the body of both loops: draw, update the
    status, add to the queue. *)
Definition publish (env : environment) (frame : ndarray)
    (detections : list Detection.t) (people_count : Z) (fall_detected : bool)
    (fall_bbox : option bounding_box) : method unit :=
  processed_frame ← draw_detections env frame detections people_count
                      fall_detected fall_bbox;
  write_status env people_count fall_detected;;
  push_frame processed_frame.

(** The body of the loop of [process_video_file] once a frame is read. *)
Definition process_frame (env : environment) (frame : ndarray) : method unit :=
  self ← get_self;
  '(frame, people_count, detections) ← lift (detect_people self frame);
  '(fall_detected, fall_bbox) ← lift (detect_fall self detections frame);
  publish env frame detections people_count fall_detected fall_bbox.

(** The [while] loop of [process_video_file] when no other thread changes
    [self.running] meanwhile; it runs once per pending frame. *)
Fixpoint video_loop (env : environment) (frames : list ndarray) : method unit :=
  match frames with
  | [] => mret ()                       (* ret is False: break *)
  | frame :: rest =>
      self ← get_self;
      if running self then process_frame env frame;; video_loop env rest
      else mret ()
  end.

(** The delay between two passes: [fps = cap.get(cv2.CAP_PROP_FPS) or 30],
    [frame_delay = 1 / fps]. *)
Definition frame_delay (cap : VideoCapture) : float :=
  let fps := if PrimFloat.eqb (CAP_PROP_FPS cap) 0 then 30%float
             else CAP_PROP_FPS cap in
  (1 / fps)%float.

Definition process_video_file (env : environment) (file_path : string)
  : method unit :=
  let cap := open_capture env file_path in
  if isOpened cap then video_loop env (pending cap) else mret ().

(** ** The synthetic feed of [process_ip_camera] *)

Module Person.
(** One entry of [person_positions]. *)
Record t := mk { x : Z; y : Z; dx : Z; dy : Z; fallen : bool }.
End Person.

Definition frame_width : Z := 640.
Definition frame_height : Z := 480.

Definition initial_positions : list Person.t :=
  [Person.mk 100 200 2 1 false;
   Person.mk 300 300 (-1) 0 false;
   Person.mk 500 250 0 (-1) false].

(** The body of [for i, person in enumerate(person_positions)] up to the
    detection that is appended: the person after the pass and its
    detection. *)
Definition simulate_person (env : environment) (i : Z) (person : Person.t)
  : method (Person.t * Detection.t) :=
  let person :=
    if negb (Person.fallen person) then
      let x := Person.x person + Person.dx person in
      let y := Person.y person + Person.dy person in
      let dx := if (x <? 50) || (x >? frame_width - 50)
                then Person.dx person * -1 else Person.dx person in
      let dy := if (y <? 100) || (y >? frame_height - 100)
                then Person.dy person * -1 else Person.dy person in
      Person.mk x y dx dy (Person.fallen person)
    else person in
  st ← get_store;
  let '(r, st) := np_random env st in
  put_store st;;
  let person :=
    if float_lt r 0.001 && negb (Person.fallen person)
    then Person.mk (Person.x person) (Person.y person) 0 0 true
    else person in
  let fallen := Person.fallen person in
  let box_size := if negb fallen then 30 else 60 in
  let x1 := Person.x person - box_size / 2 in
  let y1 := Person.y person - box_size / (if negb fallen then 2 else 1) in
  let x2 := Person.x person + box_size / 2 in
  let y2 := Person.y person + box_size / (if fallen then 2 else 1) in
  mret (person, Detection.mk (x1, y1, x2, y2) 0.9 i).

(** The whole [for] loop: the persons after the pass, in order, the
    detections, and the fall flag and box set by the last fallen person. *)
Fixpoint simulate_people (env : environment) (i : Z)
    (person_positions : list Person.t) (detections : list Detection.t)
    (fall_detected : bool) (fall_bbox : option bounding_box)
  : method (list Person.t * list Detection.t * bool * option bounding_box) :=
  match person_positions with
  | [] => mret ([], detections, fall_detected, fall_bbox)
  | person :: rest =>
      '(person, detection) ← simulate_person env i person;
      let detections := detections ++ [detection] in
      let '(fall_detected, fall_bbox) :=
        if Person.fallen person
        then (true, Some (Detection.bbox detection))
        else (fall_detected, fall_bbox) in
      '(rest, detections, fall_detected, fall_bbox) ←
        simulate_people env (i + 1) rest detections fall_detected fall_bbox;
      mret (person :: rest, detections, fall_detected, fall_bbox)
  end.

(** One pass of the [while self.running] loop of [process_ip_camera]. *)
Definition synthesize_frame (env : environment)
    (person_positions : list Person.t) : method (list Person.t) :=
  let frame : ndarray :=
    Image (frame_height, frame_width) Zeros [Fill (60, 63, 65)] in
  frame ← lift (cv2_call env
                  (Rectangle (0, frame_height - 50) (frame_width, frame_height)
                     (100, 100, 100) (-1)) frame);
  '(person_positions, detections, fall_detected, fall_bbox) ←
    simulate_people env 0 person_positions [] false None;
  publish env frame detections (Z.of_nat (length detections)) fall_detected
    fall_bbox;;
  mret person_positions.

(** ** Threads *)

(** *** A pass, statement by statement

    The threads of the program run one at a time, and another thread can
    run between any two accesses of one thread to something they share: an
    attribute of the processor, a status dictionary, a frame queue, the
    clock, the random generator.  Between two such accesses a worker is at
    one of the following points, with its local variables.  What a worker
    does without touching anything shared (the detection, the drawing on its
    own frame) goes with the access before it. *)

Definition set_total_people_count (total : Z) (self : VideoProcessor)
  : VideoProcessor :=
  set_counters total (max_people_count self) (frame_count self) self.
Definition set_frame_count (frames : Z) (self : VideoProcessor)
  : VideoProcessor :=
  set_counters (total_people_count self) (max_people_count self) frames self.
Definition set_max_people_count (maxi : Z) (self : VideoProcessor)
  : VideoProcessor :=
  set_counters (total_people_count self) maxi (frame_count self) self.

(** The loop of [draw_detections] over the detections, on the copy of the
    frame. *)
Definition draw_boxes (env : environment) (frame : ndarray)
    (detections : list Detection.t) (fall_detected : bool)
    (fall_bbox : option bounding_box) : result ndarray :=
  let frame_copy := frame in
  for_each detections (λ detection frame_copy,
    let '(x1, y1, x2, y2) := Detection.bbox detection in
    let conf := Detection.confidence detection in
    let color : color :=
      if fall_detected
         && bool_decide (Some (Detection.bbox detection) = fall_bbox)
      then (0, 0, 255) else (0, 255, 0) in
    frame_copy ← cv2_call env (Rectangle (x1, y1) (x2, y2) color 2) frame_copy;
    let label := PersonLabel (Detection.id detection + 1) conf in
    cv2_call env (PutText label (x1, y1 - 10) 0.5 color 2) frame_copy)
    frame_copy.

(** What [draw_statistics] draws between the update of the counters and the
    average: the band, the camera, the count and the fall alert. *)
Definition draw_band (env : environment) (frame : ndarray) (camera : Z)
    (people_count : Z) (fall_detected : bool) : result ndarray :=
  let '(height, width) := shape frame in
  let overlay := frame in
  overlay ← cv2_call env (Rectangle (0, 0) (width, 80) (40, 44, 52) (-1))
              overlay;
  frame ← cv2_call env (AddWeighted overlay 0.7 0.3 0) frame;
  frame ← cv2_call env
            (PutText (Str ("Camera " +:+ pretty camera)) (10, 30) 0.8 white 2)
            frame;
  let count_color : color :=
    if people_count <=? 10 then (0, 255, 0)
    else if people_count <=? 20 then (0, 165, 255)
    else (0, 0, 255) in
  frame ← cv2_call env
            (PutText (Str ("People: " +:+ pretty people_count))
               (10, 60) 0.7 count_color 2) frame;
  if fall_detected then
    frame ← cv2_call env
              (Rectangle (width / 2 - 150, 10) (width / 2 + 150, 50)
                 (0, 0, 255) (-1)) frame;
    cv2_call env
      (PutText (Str "FALL DETECTED!") (width / 2 - 120, 40) 0.9 white 2) frame
  else Return frame.

(** The loop a worker runs, with what the loop keeps from a pass to the
    next. *)
Inductive loop :=
  | VideoLoop (cap : VideoCapture)
  | IpLoop (person_positions : list Person.t).

(** The points of a pass from the first shared access of [draw_statistics]
    on: the statement the worker executes next, the frame it draws on, and
    what it has read. *)
Inductive position :=
  (* self.total_people_count += people_count *)
  | ReadTotal (frame : ndarray) (people_count : Z) (fall_detected : bool)
  | WriteTotal (frame : ndarray) (people_count : Z) (fall_detected : bool)
      (total_people_count : Z)
  (* self.frame_count += 1 *)
  | ReadFrames (frame : ndarray) (people_count : Z) (fall_detected : bool)
  | WriteFrames (frame : ndarray) (people_count : Z) (fall_detected : bool)
      (frame_count : Z)
  (* self.max_people_count = max(self.max_people_count, people_count) *)
  | ReadMax (frame : ndarray) (people_count : Z) (fall_detected : bool)
  | WriteMax (frame : ndarray) (people_count : Z) (fall_detected : bool)
      (max_people_count : Z)
  (* avg_count = self.total_people_count / max(self.frame_count, 1) *)
  | ReadAverage (frame : ndarray) (people_count : Z) (fall_detected : bool)
  | ReadAverageFrames (frame : ndarray) (people_count : Z)
      (fall_detected : bool) (total_people_count : Z)
  (* f"Avg: {avg_count:.1f} | Max: {self.max_people_count}" *)
  | ReadMaxText (frame : ndarray) (people_count : Z) (fall_detected : bool)
      (avg_count : float)
  (* timestamp = datetime.now().strftime(...) *)
  | Timestamp (frame : ndarray) (people_count : Z) (fall_detected : bool)
  (* self.status['count'] = ..., ['fall'] = ..., ['timestamp'] = ... *)
  | StatusCount (processed_frame : ndarray) (people_count : Z)
      (fall_detected : bool)
  | StatusFall (processed_frame : ndarray) (people_count : Z)
      (fall_detected : bool)
  | StatusTimestamp (processed_frame : ndarray) (people_count : Z)
      (fall_detected : bool)
  (* if self.frame_queue.full(): self.frame_queue.get() *)
  | QueueFull (processed_frame : ndarray)
  | QueueGet (processed_frame : ndarray)
  (* self.frame_queue.put(processed_frame) *)
  | QueuePut (processed_frame : ndarray).

(** Where a worker thread is: at the head of one of the two loops, inside a
    pass, or no longer running its target. *)
Inductive thread_state :=
  | InVideoLoop (cap : VideoCapture)
  | InIpLoop (person_positions : list Person.t)
  (* in [for i, person in enumerate(person_positions)], before the pass
     for the first person of [todo] *)
  | Simulating (frame : ndarray) (i : Z) (moved todo : list Person.t)
      (detections : list Detection.t) (fall_detected : bool)
      (fall_bbox : option bounding_box)
  | InPass (next : loop) (pt : position)
  | Stuck                (* inside a call that does not return *)
  | Finished             (* the target returned *)
  | Died (e : exn).      (* the target raised *)

Definition head (next : loop) : thread_state :=
  match next with
  | VideoLoop cap => InVideoLoop cap
  | IpLoop person_positions => InIpLoop person_positions
  end.

(** A [Thread] whose target is a bound method of the processor stored
    under [target_self] in [video_processors]. *)
Record thread := Thread { target_self : Z; state : thread_state }.

(** [Thread.is_alive()] *)
Definition is_alive (t : thread) : bool :=
  match state t with
  | InVideoLoop _ | InIpLoop _ | Simulating _ _ _ _ _ _ _ | InPass _ _
  | Stuck => true
  | Finished | Died _ => false
  end.

(** [self.frame_queue]: the queue the processor refers to (a reference
    always refers to a queue: the other outcome is there for the lookup to
    be total). *)
Definition the_queue (self : VideoProcessor) (st : store)
  : result (Queue.t ndarray) :=
  match frame_queues st !! frame_queue self with
  | Some q => Return q
  | None => Raise KeyError
  end.

(** The statement at a point of a pass: what it does to the processor and
    to the store, and where the worker is next; a statement that raises ends
    the thread, one that waits leaves everything as it is. *)
Definition pass_statement (env : environment) (next : loop) (pt : position)
  : VideoProcessor → store → VideoProcessor * store * result thread_state :=
  λ self st,
  match pt with
  | ReadTotal frame people_count fall_detected =>
      (self, st,
       Return (InPass next (WriteTotal frame people_count fall_detected
                              (total_people_count self))))
  | WriteTotal frame people_count fall_detected total_people_count =>
      (set_total_people_count (total_people_count + people_count) self, st,
       Return (InPass next (ReadFrames frame people_count fall_detected)))
  | ReadFrames frame people_count fall_detected =>
      (self, st,
       Return (InPass next (WriteFrames frame people_count fall_detected
                              (frame_count self))))
  | WriteFrames frame people_count fall_detected frame_count =>
      (set_frame_count (frame_count + 1) self, st,
       Return (InPass next (ReadMax frame people_count fall_detected)))
  | ReadMax frame people_count fall_detected =>
      (self, st,
       Return (InPass next (WriteMax frame people_count fall_detected
                              (max_people_count self))))
  | WriteMax frame people_count fall_detected max_people_count =>
      (set_max_people_count (Z.max max_people_count people_count) self, st,
       frame ← draw_band env frame (camera_id self) people_count
                 fall_detected;
       Return (InPass next (ReadAverage frame people_count fall_detected)))
  | ReadAverage frame people_count fall_detected =>
      (self, st,
       Return (InPass next (ReadAverageFrames frame people_count
                              fall_detected (total_people_count self))))
  | ReadAverageFrames frame people_count fall_detected total_people_count =>
      (self, st,
       avg_count ← true_div total_people_count (Z.max (frame_count self) 1);
       Return (InPass next (ReadMaxText frame people_count fall_detected
                              avg_count)))
  | ReadMaxText frame people_count fall_detected avg_count =>
      let '(height, width) := shape frame in
      (self, st,
       frame ← cv2_call env
                 (PutText (AvgMax avg_count (max_people_count self))
                    (width - 300, 60) 0.6 grey 1) frame;
       Return (InPass next (Timestamp frame people_count fall_detected)))
  | Timestamp frame people_count fall_detected =>
      let '(height, width) := shape frame in
      let '(t, st) := now st in
      let timestamp := strftime env "%Y-%m-%d %H:%M:%S" t in
      (self, st,
       processed_frame ←
         cv2_call env (PutText (Str timestamp) (width - 250, 30) 0.6 grey 1)
           frame;
       Return (InPass next (StatusCount processed_frame people_count
                              fall_detected)))
  | StatusCount processed_frame people_count fall_detected =>
      (self,
       set_dicts (alter (λ d, <["count" := PInt people_count]> d)
                    (status self) (dicts st)) st,
       Return (InPass next (StatusFall processed_frame people_count
                              fall_detected)))
  | StatusFall processed_frame people_count fall_detected =>
      (self,
       set_dicts (alter (λ d, <["fall" := PBool fall_detected]> d)
                    (status self) (dicts st)) st,
       Return (InPass next (StatusTimestamp processed_frame people_count
                              fall_detected)))
  | StatusTimestamp processed_frame people_count fall_detected =>
      let '(t, st) := now st in
      (self,
       set_dicts (alter (λ d, <["timestamp" := PStr (isoformat env t)]> d)
                    (status self) (dicts st)) st,
       Return (InPass next (QueueFull processed_frame)))
  | QueueFull processed_frame =>
      (self, st,
       q ← the_queue self st;
       Return (InPass next (if Queue.full q then QueueGet processed_frame
                            else QueuePut processed_frame)))
  | QueueGet processed_frame =>
      match q ← the_queue self st; Queue.get q with
      | Return (_, q) =>
          (self,
           set_frame_queues (<[frame_queue self := q]> (frame_queues st)) st,
           Return (InPass next (QueuePut processed_frame)))
      | Raise e => (self, st, Raise e)
      | Waits => (self, st, Waits)
      end
  | QueuePut processed_frame =>
      match q ← the_queue self st; Queue.put processed_frame q with
      | Return q =>
          (self,
           set_frame_queues (<[frame_queue self := q]> (frame_queues st)) st,
           Return (head next))
      | Raise e => (self, st, Raise e)
      | Waits => (self, st, Waits)
      end
  end.

(** The next statement of a worker that is in a pass, and the test of the
    [while] with what follows it up to the first shared access for a worker
    at the head of its loop. *)
Definition statement (env : environment) (s : thread_state)
  : VideoProcessor → store → VideoProcessor * store * result thread_state :=
  λ self st,
  match s with
  | InVideoLoop cap =>
      if running self && isOpened cap then
        match pending cap with
        | [] => (self, st, Return Finished)
        | frame :: rest =>
            let next :=
              VideoLoop (Capture (isOpened cap) (CAP_PROP_FPS cap) rest) in
            (self, st,
             '(frame, people_count, detections) ← detect_people self frame;
             '(fall_detected, fall_bbox) ← detect_fall self detections frame;
             frame_copy ← draw_boxes env frame detections fall_detected
                            fall_bbox;
             Return (InPass next
                       (ReadTotal frame_copy people_count fall_detected)))
        end
      else (self, st, Return Finished)
  | InIpLoop person_positions =>
      if running self then
        let frame : ndarray :=
          Image (frame_height, frame_width) Zeros [Fill (60, 63, 65)] in
        (self, st,
         frame ← cv2_call env
                   (Rectangle (0, frame_height - 50)
                      (frame_width, frame_height) (100, 100, 100) (-1)) frame;
         Return (Simulating frame 0 [] person_positions [] false None))
      else (self, st, Return Finished)
  | Simulating frame i moved todo detections fall_detected fall_bbox =>
      match todo with
      | [] =>
          (self, st,
           frame_copy ← draw_boxes env frame detections fall_detected
                          fall_bbox;
           Return (InPass (IpLoop moved)
                     (ReadTotal frame_copy (Z.of_nat (length detections))
                        fall_detected)))
      | person :: todo =>
          match simulate_person env i person self st with
          | (self, st, Return (person, detection)) =>
              let '(fall_detected, fall_bbox) :=
                if Person.fallen person
                then (true, Some (Detection.bbox detection))
                else (fall_detected, fall_bbox) in
              (self, st,
               Return (Simulating frame (i + 1) (moved ++ [person]) todo
                         (detections ++ [detection]) fall_detected fall_bbox))
          | (self, st, Raise e) => (self, st, Raise e)
          | (self, st, Waits) => (self, st, Waits)
          end
      end
  | InPass next pt => pass_statement env next pt self st
  | Stuck | Finished | Died _ => (self, st, Return s)
  end.

(** One step of a worker: its next statement.  A call that does not return
    at the head of the loop is the call of the detector, which never
    returns; inside a pass it is a [get] or a [put] that waits for the queue,
    and the worker is still before it. *)
Definition thread_action (env : environment) (s : thread_state)
  : VideoProcessor → store → VideoProcessor * store * thread_state :=
  λ self st,
  match statement env s self st with
  | (self, st, Return s) => (self, st, s)
  | (self, st, Raise e) => (self, st, Died e)
  | (self, st, Waits) =>
      (self, st, match s with
                 | InVideoLoop _ | InIpLoop _ => Stuck
                 | _ => s
                 end)
  end.

(** Whether a worker is inside a pass, between two statements of it. *)
Definition in_pass (s : thread_state) : bool :=
  match s with
  | Simulating _ _ _ _ _ _ _ | InPass _ _ => true
  | _ => false
  end.

(** Whether a worker is inside [with self.status_lock:], and so holds the
    lock. *)
Definition in_status_block (s : thread_state) : bool :=
  match s with
  | InPass _ (StatusFall _ _ _ | StatusTimestamp _ _ _) => true
  | _ => false
  end.

(** Whether a worker is before [with self.status_lock:], and so needs the
    lock for its next statement. *)
Definition before_status_block (s : thread_state) : bool :=
  match s with
  | InPass _ (StatusCount _ _ _) => true
  | _ => false
  end.

(** One pass of a worker through its loop in one go, from the head of the
    loop and with no step of another thread before the pass is over: the
    test of the [while], and the body if the test holds.  A worker that is
    inside a pass is not at the head of its loop: it goes on statement by
    statement ([thread_action]). *)
Definition thread_step (env : environment) (s : thread_state)
  : VideoProcessor → store → VideoProcessor * store * thread_state :=
  λ self st,
  match s with
  | InVideoLoop cap =>
      if running self && isOpened cap then
        match pending cap with
        | [] => (self, st, Finished)
        | frame :: rest =>
            match process_frame env frame self st with
            | (self, st, Return _) =>
                (self, st,
                 InVideoLoop (Capture (isOpened cap) (CAP_PROP_FPS cap) rest))
            | (self, st, Raise e) => (self, st, Died e)
            | (self, st, Waits) => (self, st, Stuck)
            end
        end
      else (self, st, Finished)
  | InIpLoop person_positions =>
      if running self then
        match synthesize_frame env person_positions self st with
        | (self, st, Return person_positions) =>
            (self, st, InIpLoop person_positions)
        | (self, st, Raise e) => (self, st, Died e)
        | (self, st, Waits) => (self, st, Stuck)
        end
      else (self, st, Finished)
  | Simulating _ _ _ _ _ _ _ | InPass _ _ | Stuck | Finished | Died _ =>
      (self, st, s)
  end.

(** [start_video_file] and [start_ip_camera]: the new thread is appended to
    the thread table. *)
Definition start_video_file (env : environment) (file_path : string)
    (self : VideoProcessor) (threads : list thread)
  : VideoProcessor * list thread :=
  let self := set_running true self in
  let process_thread :=
    Thread (camera_id self) (InVideoLoop (open_capture env file_path)) in
  (set_process_thread (Some (length threads)) self,
   threads ++ [process_thread]).

Definition start_ip_camera (ip_url : string)
    (self : VideoProcessor) (threads : list thread)
  : VideoProcessor * list thread :=
  let self := set_running true self in
  let process_thread := Thread (camera_id self) (InIpLoop initial_positions) in
  (set_process_thread (Some (length threads)) self,
   threads ++ [process_thread]).

(** ** main.py: the global state and the routes *)

(** The module's globals ([frame_queues] is in the store), the status
    dictionaries they refer to, and the table of the threads started so
    far (a thread is named by its index). *)
Record system := System {
  objects : store;
  video_processors : gmap Z VideoProcessor;
  camera_status : gmap Z loc;
  threads : list thread
}.

Definition offline_status : gmap string pyval :=
  {[ "type" := PStr "offline"; "url" := PNone; "count" := PInt 0;
     "fall" := PBool false ]}.

(** The state after the module is loaded. *)
Definition initial : system :=
  System
    (Store {[ 0%nat := offline_status; 1%nat := offline_status;
              2%nat := offline_status; 3%nat := offline_status ]}
           {[ 1 := Queue.new 10; 2 := Queue.new 10;
              3 := Queue.new 10; 4 := Queue.new 10 ]}
           0 0)
    ∅
    {[ 1 := 0%nat; 2 := 1%nat; 3 := 2%nat; 4 := 3%nat ]}
    [].

Inductive response :=
  | OK
  | BadRequest
  | InternalServerError (e : exn)
  | NoResponse.       (* the handler does not return *)

(** [camera_status[camera_id] = {...}]: a new dictionary takes the place
    of the old one under the key. *)
Definition assign_status (camera_id : Z) (d : gmap string pyval)
    (sys : system) : system :=
  let st := objects sys in
  let l := fresh (dom (dicts st)) in
  System (set_dicts (<[l := d]> (dicts st)) st) (video_processors sys)
    (<[camera_id := l]> (camera_status sys)) (threads sys).

(** [get_processor]: the processor is named by its key. *)
Definition get_processor (env : environment) (camera_id : Z) (sys : system)
  : system * result Z :=
  match video_processors sys !! camera_id with
  | Some _ => (sys, Return camera_id)
  | None =>
      match frame_queues (objects sys) !! camera_id with
      | None => (sys, Raise KeyError)
      | Some _ =>
          let '(processor, st) := init env camera_id camera_id (objects sys) in
          (System st (<[camera_id := processor]> (video_processors sys))
             (camera_status sys) (threads sys),
           Return camera_id)
      end
  end.

(** A method call [video_processors[key].m(...)] for a method that changes
    the processor and the thread table. *)
Definition call_start (key : Z)
    (m : VideoProcessor → list thread → VideoProcessor * list thread)
    (sys : system) : system :=
  match video_processors sys !! key with
  | None => sys
  | Some self =>
      let '(self, threads) := m self (threads sys) in
      System (objects sys) (<[key := self]> (video_processors sys))
        (camera_status sys) threads
  end.

(** Route [/set_ip] with the JSON fields [camera_id] and [ip]. *)
Definition set_ip (env : environment) (camera_id : Z) (ip : option string)
    (sys : system) : system * response :=
  match ip with
  | None | Some "" => (sys, BadRequest)
  | Some ip_address =>
      let '(t, st) := now (objects sys) in
      let sys := System st (video_processors sys) (camera_status sys)
                   (threads sys) in
      let sys := assign_status camera_id
        {[ "type" := PStr "ip_camera"; "url" := PStr ip_address;
           "count" := PInt 0; "fall" := PBool false;
           "timestamp" := PStr (isoformat env t) ]} sys in
      match get_processor env camera_id sys with
      | (sys, Return processor) =>
          (call_start processor (start_ip_camera ip_address) sys, OK)
      | (sys, Raise e) => (sys, InternalServerError e)
      | (sys, Waits) => (sys, NoResponse)
      end
  end.

(** Route [/upload] with the uploaded file's name (if any) and the form
    field [camera_id]. *)
Definition upload_file (env : environment) (file : option string)
    (camera_id : Z) (sys : system) : system * response :=
  match file with
  | None | Some "" => (sys, BadRequest)
  | Some file_name =>
      let '(t, st) := now (objects sys) in
      let timestamp := strftime env "%Y%m%d_%H%M%S" t in
      let filename :=
        "camera_" +:+ pretty camera_id +:+ "_" +:+ timestamp +:+ "_"
          +:+ file_name in
      let file_path := "uploads/" +:+ filename in
      let '(t, st) := now st in
      let sys := System st (video_processors sys) (camera_status sys)
                   (threads sys) in
      let sys := assign_status camera_id
        {[ "type" := PStr "video_file"; "url" := PStr filename;
           "count" := PInt 0; "fall" := PBool false;
           "timestamp" := PStr (isoformat env t) ]} sys in
      match get_processor env camera_id sys with
      | (sys, Return processor) =>
          (call_start processor (start_video_file env file_path) sys, OK)
      | (sys, Raise e) => (sys, InternalServerError e)
      | (sys, Waits) => (sys, NoResponse)
      end
  end.

(** Whether a worker of the processor stored under [key] holds the
    processor's [status_lock]. *)
Definition status_lock_held (key : Z) (threads : list thread) : bool :=
  existsb (λ t, (target_self t =? key) && in_status_block (state t)) threads.

(** One pass of worker [tid] through its loop in one go.  No worker makes
    a pass in one go while another worker of its processor holds the lock:
    it would have to wait for it. *)
Definition worker_step (env : environment) (tid : nat) (sys : system)
  : system :=
  match threads sys !! tid with
  | None => sys
  | Some t =>
      if status_lock_held (target_self t) (threads sys) then sys
      else
        match video_processors sys !! target_self t with
        | None => sys
        | Some self =>
            let '(self, st, s) :=
              thread_step env (state t) self (objects sys) in
            System st (<[target_self t := self]> (video_processors sys))
              (camera_status sys)
              (<[tid := Thread (target_self t) s]> (threads sys))
        end
  end.

(** The next statement of worker [tid].  A worker that needs the lock
    while another worker of its processor holds it stays where it is. *)
Definition worker_action (env : environment) (tid : nat) (sys : system)
  : system :=
  match threads sys !! tid with
  | None => sys
  | Some t =>
      if before_status_block (state t)
         && status_lock_held (target_self t) (threads sys) then sys
      else
        match video_processors sys !! target_self t with
        | None => sys
        | Some self =>
            let '(self, st, s) :=
              thread_action env (state t) self (objects sys) in
            System st (<[target_self t := self]> (video_processors sys))
              (camera_status sys)
              (<[tid := Thread (target_self t) s]> (threads sys))
        end
  end.

(** What happens while [stop] runs: a statement of a worker, time that
    passes (in milliseconds), or the next step of [stop] itself. *)
Inductive tick :=
  | Act (tid : nat)
  | Elapse (ms : N)
  | Own.

(** Where the caller of [stop] is after [self.running = False]: waiting in
    [self.process_thread.join(timeout=2)] since [elapsed] milliseconds, before
    the test of the [while], before [get_nowait()], or past the loop. *)
Inductive stop_point :=
  | Joining (tid : nat) (elapsed : Z)
  | TestingEmpty
  | Getting
  | Stopped.

(** [t.join(timeout)] after [elapsed] milliseconds: whether the wait is
    over, which it is when the thread has ended or [timeout] seconds have
    passed, whichever comes first. *)
Definition join (t : thread) (timeout : Z) (elapsed : Z) : bool :=
  negb (is_alive t) || (timeout * 1000 <=? elapsed).

(** One tick during [stop] on the processor [self] found under [key] when
    [stop] was called. *)
Definition stop_action (env : environment) (self : VideoProcessor)
    (p : stop_point) (tk : tick) (sys : system) : system * stop_point :=
  match tk with
  | Act tid => (worker_action env tid sys, p)
  | Elapse ms =>
      (sys, match p with
            | Joining tid elapsed => Joining tid (elapsed + Z.of_N ms)
            | _ => p
            end)
  | Own =>
      let st := objects sys in
      match p with
      | Joining tid elapsed =>
          match threads sys !! tid with
          | Some t => (sys, if join t 2 elapsed then TestingEmpty else p)
          | None => (sys, TestingEmpty)
          end
      | TestingEmpty =>
          (* while not self.frame_queue.empty(): *)
          match frame_queues st !! frame_queue self with
          | Some q => (sys, if Queue.empty q then Stopped else Getting)
          | None => (sys, Stopped)
          end
      | Getting =>
          (* try: self.frame_queue.get_nowait()  except: pass *)
          match frame_queues st !! frame_queue self with
          | Some q =>
              match Queue.get_nowait q with
              | Return (_, q) =>
                  (System
                     (set_frame_queues
                        (<[frame_queue self := q]> (frame_queues st)) st)
                     (video_processors sys) (camera_status sys) (threads sys),
                   TestingEmpty)
              | _ => (sys, TestingEmpty)
              end
          | None => (sys, TestingEmpty)
          end
      | Stopped => (sys, Stopped)
      end
  end.

(** The ticks of [during] one after the other, up to the one with which
    [stop] returns. *)
Fixpoint stop_run (env : environment) (self : VideoProcessor)
    (during : list tick) (p : stop_point) (sys : system)
  : system * stop_point :=
  match p, during with
  | Stopped, _ | _, [] => (sys, p)
  | _, tk :: during =>
      let '(sys, p) := stop_action env self p tk sys in
      stop_run env self during p sys
  end.

(** [VideoProcessor.stop] on the processor stored under [key], with what
    happens while it runs; it has not returned ([Waits]) when [during] ends
    before it does. *)
Definition stop (env : environment) (key : Z) (during : list tick)
    (sys : system) : system * result unit :=
  match video_processors sys !! key with
  | None => (sys, Return ())
  | Some self =>
      let sys := System (objects sys)
                   (<[key := set_running false self]> (video_processors sys))
                   (camera_status sys) (threads sys) in
      let p := match process_thread self with
               | Some tid => Joining tid 0
               | None => TestingEmpty
               end in
      let '(sys, p) := stop_run env self during p sys in
      (sys, match p with
            | Stopped => Return ()
            | _ => Waits
            end)
  end.

(** Route [/close_camera/<camera_id>]. *)
Definition close_camera (env : environment) (camera_id : Z)
    (during : list tick) (sys : system) : system * response :=
  let sys := assign_status camera_id offline_status sys in
  if bool_decide (is_Some (video_processors sys !! camera_id)) then
    match stop env camera_id during sys with
    | (sys, Return _) => (sys, OK)
    | (sys, Raise e) => (sys, InternalServerError e)
    | (sys, Waits) => (sys, NoResponse)
    end
  else (sys, OK).

(** Route [/test_feed/<camera_id>] up to the creation of the generator. *)
Definition test_feed (env : environment) (camera_id : Z) (sys : system)
  : system * response :=
  match get_processor env camera_id sys with
  | (sys, Return _) => (sys, OK)
  | (sys, Raise e) => (sys, InternalServerError e)
  | (sys, Waits) => (sys, NoResponse)
  end.

(** One pass of the generator of [test_feed]: the frame it sends, or [None]
    for the blank frame ([queue.Empty]) and for the end of the stream. *)
Definition generate (camera_id : Z) (sys : system) : system * option ndarray :=
  let st := objects sys in
  match frame_queues st !! camera_id with
  | None => (sys, None)
  | Some q =>
      match Queue.get_timeout 1 q with
      | Return (frame, q) =>
          let st := set_frame_queues (<[camera_id := q]> (frame_queues st)) st in
          match camera_status sys !! camera_id,
                video_processors sys !! camera_id with
          | Some status, Some processor =>
              (System st
                 (<[camera_id := update_status status processor]>
                    (video_processors sys))
                 (camera_status sys) (threads sys),
               Some frame)
          | _, _ =>
              (System st (video_processors sys) (camera_status sys)
                 (threads sys), None)
          end
      | _ => (sys, None)
      end
  end.

(** What can happen next: a request, a pass of the generator of a feed, a
    pass of a worker in one go, or the next statement of a worker.  A request
    is served with no other request meanwhile; what the workers do while
    [stop] waits is part of [CloseCamera]. *)
Inductive event :=
  | SetIp (camera_id : Z) (ip : option string)
  | Upload (file : option string) (camera_id : Z)
  | CloseCamera (camera_id : Z) (during : list tick)
  | TestFeed (camera_id : Z)
  | Generate (camera_id : Z)
  | WorkerStep (tid : nat)
  | WorkerAction (tid : nat).

Definition step (env : environment) (sys : system) (ev : event) : system :=
  match ev with
  | SetIp camera_id ip => (set_ip env camera_id ip sys).1
  | Upload file camera_id => (upload_file env file camera_id sys).1
  | CloseCamera camera_id during =>
      (close_camera env camera_id during sys).1
  | TestFeed camera_id => (test_feed env camera_id sys).1
  | Generate camera_id => (generate camera_id sys).1
  | WorkerStep tid => worker_step env tid sys
  | WorkerAction tid => worker_action env tid sys
  end.

Definition run (env : environment) (evs : list event) (sys : system) : system :=
  foldl (step env) sys evs.

(** ** Definitions used to state the properties *)

(** Pushing the frames of a list one after the other, as a worker does over
    successive passes. *)
Fixpoint enqueue_all {A} (q : Queue.t A) (frames : list A)
  : result (Queue.t A) :=
  match frames with
  | [] => Return q
  | processed_frame :: rest =>
      q ← enqueue q processed_frame; enqueue_all q rest
  end.

(** [n] successive [get()]: what they return, in the order they return it,
    and the queue that is left. *)
Fixpoint retrieve {A} (n : nat) (q : Queue.t A) : result (list A * Queue.t A) :=
  match n with
  | O => Return ([], q)
  | S n =>
      '(x, q) ← Queue.get q;
      '(xs, q) ← retrieve n q;
      Return (x :: xs, q)
  end.

(** The fall test of [detect_fall] on one detection, for a frame of height
    [frame_height]: positive width, [height / width < 0.8],
    [(y1 + y2) / 2 > frame_height * 0.6] and [height > frame_height * 0.3],
    evaluated from left to right as far as needed, in the arithmetic of the
    program. *)
Definition fall_test (frame_height : Z) (d : Detection.t) : result bool :=
  let '(x1, y1, x2, y2) := Detection.bbox d in
  if 0 <? x2 - x1 then
    aspect_ratio ← true_div (y2 - y1) (x2 - x1);
    bbox_center_y ← true_div (y1 + y2) 2;
    if float_lt aspect_ratio 0.8 then
      low ← int_mul_float frame_height 0.6;
      if float_gt bbox_center_y low then
        large ← int_mul_float frame_height 0.3;
        Return (int_gt_float (y2 - y1) large)
      else Return false
    else Return false
  else Return false.

(** The same test in exact arithmetic. *)
Definition exact_fall_test (frame_height : Z) (d : Detection.t) : bool :=
  let '(x1, y1, x2, y2) := Detection.bbox d in
  (0 <? x2 - x1)
  && (5 * (y2 - y1) <? 4 * (x2 - x1))
  && (6 * frame_height <? 5 * (y1 + y2))
  && (3 * frame_height <? 10 * (y2 - y1)).

(** All the boxes of a detector's answer, in the order they are visited. *)
Definition all_boxes (results : list yolo_result) : list yolo_box :=
  results ≫= λ r, default [] (boxes r).

(** A box of class 0 ("person") with confidence above 0.5. *)
Definition confident_person (b : yolo_box) : Prop :=
  int_of_float (cls b) = Return 0 ∧ float_gt (conf b) 0.5 = true.

(** The detection dictionary made from a box: its confidence, and its
    corners converted by [int]. *)
Definition made_from (d : Detection.t) (b : yolo_box) : Prop :=
  Detection.confidence d = conf b ∧
  let '(fx1, fy1, fx2, fy2) := xyxy b in
  let '(x1, y1, x2, y2) := Detection.bbox d in
  int_of_float fx1 = Return x1 ∧ int_of_float fy1 = Return y1 ∧
  int_of_float fx2 = Return x2 ∧ int_of_float fy2 = Return y2.

(** What holds of the count and of the detections all along [run_inference]
    over the answer [results]: the count is the number of detections, the
    [id] of a detection is its position, and every detection is made from a
    box of the answer of class 0 with confidence above 0.5. *)
Definition inference_invariant (results : list yolo_result)
    (s : Z * list Detection.t) : Prop :=
  s.1 = Z.of_nat (length s.2)
  ∧ (∀ (i : nat) d, s.2 !! i = Some d → Detection.id d = Z.of_nat i)
  ∧ Forall (λ d, ∃ b, b ∈ all_boxes results ∧ confident_person b
                      ∧ made_from d b) s.2.


(** The entry [key] of the dictionary at address [l]. *)
Definition dict_entry (st : store) (l : loc) (key : string) : option pyval :=
  d ← dicts st !! l; d !! key.

(** [camera_status[camera_id][key]], if both keys are there. *)
Definition status_entry (sys : system) (camera_id : Z) (key : string)
  : option pyval :=
  l ← camera_status sys !! camera_id; dict_entry (objects sys) l key.

(** The running statistics of a processor did not decrease, and its other
    attributes except [status] are the same. *)
Definition counters_le (p p' : VideoProcessor) : Prop :=
  total_people_count p ≤ total_people_count p' ∧
  max_people_count p ≤ max_people_count p' ∧
  frame_count p ≤ frame_count p'.

(** The workers of a camera that are alive. *)
Definition live_workers (camera_id : Z) (sys : system) : list thread :=
  filter (λ t, target_self t = camera_id ∧ is_alive t = true) (threads sys).

(** What one pass of a worker may change: of the processor, only the
    running statistics, which do not decrease; of the dictionaries, only
    entries [count], [fall] and [timestamp]; no dictionary and no queue
    appears or disappears. *)
Record pass_effect (self : VideoProcessor) (st : store)
    (self' : VideoProcessor) (st' : store) : Prop := PassEffect {
  pe_camera_id : camera_id self' = camera_id self;
  pe_frame_queue : frame_queue self' = frame_queue self;
  pe_running : running self' = running self;
  pe_process_thread : process_thread self' = process_thread self;
  pe_model : model self' = model self;
  pe_status : status self' = status self;
  pe_counters : counters_le self self';
  pe_dicts_keys : ∀ l key,
    key ∉ ["count"; "fall"; "timestamp"] →
    dict_entry st' l key = dict_entry st l key;
  pe_dicts_dom : ∀ l, is_Some (dicts st' !! l) ↔ is_Some (dicts st !! l);
  pe_queues_dom : ∀ k,
    is_Some (frame_queues st' !! k) ↔ is_Some (frame_queues st !! k)
}.

(** A method all of whose runs have that effect. *)
Definition one_pass {A} (m : method A) : Prop :=
  ∀ self st, pass_effect self st (m self st).1.1 (m self st).1.2.

(** The processor part and the store part of the effect of a statement of
    a worker: of the processor, nothing but the running statistics changes. *)
Definition same_but_counters (p p' : VideoProcessor) : Prop :=
  camera_id p' = camera_id p ∧ frame_queue p' = frame_queue p
  ∧ running p' = running p ∧ process_thread p' = process_thread p
  ∧ status p' = status p.

Definition store_effect (st st' : store) : Prop :=
  (∀ l key, key ∉ ["count"; "fall"; "timestamp"] →
            dict_entry st' l key = dict_entry st l key)
  ∧ (∀ l, is_Some (dicts st' !! l) ↔ is_Some (dicts st !! l))
  ∧ (∀ k, is_Some (frame_queues st' !! k) ↔ is_Some (frame_queues st !! k)).

(** What the workers may change of the system: no processor and no
    thread appears or disappears, no thread changes its target, and
    [camera_status] keeps referring to the same dictionaries. *)
Record workers_effect (sys sys' : system) : Prop := WorkersEffect {
  we_camera_status : camera_status sys' = camera_status sys;
  we_processors : ∀ key,
    option_Forall2 same_but_counters
      (video_processors sys !! key) (video_processors sys' !! key);
  we_store : store_effect (objects sys) (objects sys');
  we_threads : target_self <$> threads sys' = target_self <$> threads sys
}.


(** ** Concrete inputs *)

(** An environment in which the model cannot be loaded and no drawing call
    fails; an uploaded file has three frames of 640x480. *)
Definition three_frames : VideoCapture :=
  Capture true 30
    [Image (480, 640) (Decoded 0) []; Image (480, 640) (Decoded 1) [];
     Image (480, 640) (Decoded 2) []].

Definition quiet_env : environment :=
  Environment (inl (Error "weights not found")) (λ _ _, None)
    (λ _, three_frames) (λ _, 0.5%float) (λ _ t, pretty t) (λ t, pretty t).

(** The same, except that every drawing call on the first frame of a file
    raises. *)
Definition first_frame_fails : environment :=
  Environment (inl (Error "weights not found"))
    (λ _ img, match source img with
              | Decoded 0 => Some (Error "cv2.error")
              | _ => None
              end)
    (λ _, three_frames) (λ _, 0.5%float) (λ _ t, pretty t) (λ t, pretty t).

(** A model that answers with two results: a confident person, a person
    below the threshold, a confident dog and a second confident person. *)
Definition sample_model : yolo := λ _,
  Return [YoloResult (Some [Box 0 0.9 (100.6, 250.2, 400.9, 450)%float;
                            Box 0 0.5 (1, 2, 3, 4)%float;
                            Box 16 0.95 (5, 6, 7, 8)%float]);
          YoloResult None;
          YoloResult (Some [Box 0 0.75 (10, 20, 30.5, 40)%float])].

Definition sample_processor : VideoProcessor :=
  Processor 1 1 true (Some 0%nat) (Some sample_model) 0%nat [] 0 0 0.

(** The three boxes of the specification's examples and three more, in a
    frame of height 480. *)
Definition example_frame : ndarray := Image (480, 640) (Decoded 0) [].
Definition example_processor : VideoProcessor :=
  Processor 1 1 true None None 0%nat [] 0 0 0.
Definition example_detections : list Detection.t :=
  [Detection.mk (100, 300, 160, 340) 0.9 0;    (* 60 x 40: not tall enough *)
   Detection.mk (100, 250, 150, 450) 0.9 1;    (* 50 x 200: upright *)
   Detection.mk (100, 250, 100, 450) 0.9 2;    (* empty box *)
   Detection.mk (100, 250, 300, 450) 0.9 3;    (* 200 x 200: ratio 1.0 *)
   Detection.mk (100, 250, 400, 450) 0.9 4;    (* 300 x 200: a fall *)
   Detection.mk (0, 250, 400, 450) 0.9 5].     (* 400 x 200: a fall too *)

(** What a request that starts a source does to the threads and to the
    [running] flags: every thread started before is still in the table, in
    the state it was in; no flag that was set is cleared; and when the
    request succeeds there is one more thread, in state [s], whose target is
    the processor of the camera, which is flagged as running and refers to
    the new thread. *)
Definition start_effect (key : Z) (sys : system)
    (r : system * response) (s : thread_state) : Prop :=
  (∀ tid t, threads sys !! tid = Some t → threads r.1 !! tid = Some t)
  ∧ (∀ key p, video_processors sys !! key = Some p → running p = true →
       ∃ p', video_processors r.1 !! key = Some p' ∧ running p' = true)
  ∧ (r.2 = OK →
     ∃ p, video_processors r.1 !! key = Some p
          ∧ running p = true
          ∧ process_thread p = Some (length (threads sys))
          ∧ threads r.1 = threads sys ++ [Thread (camera_id p) s]).

(** Camera 1 with a synthetic source whose worker has made one pass. *)
Definition one_worker_running : system :=
  run quiet_env [SetIp 1 (Some "10.0.0.1"); WorkerStep 0] initial.

(** What [detect_people] returns for [sample_model]. *)
Definition sample_detections : list Detection.t :=
  [Detection.mk (100, 250, 400, 450) 0.9 0;
   Detection.mk (10, 20, 30, 40) 0.75 1].


(** Camera 1 with a synthetic source, one frame made and sent to a feed, so
    that the processor's [status] is the camera's status record. *)
Definition feed_attached : system :=
  run quiet_env [SetIp 1 (Some "10.0.0.1"); WorkerStep 0; Generate 1] initial.

(** The positions of the three persons of the synthetic feed after two
    passes. *)
Definition walked_twice : list Person.t :=
  [Person.mk 104 202 2 1 false;
   Person.mk 298 300 (-1) 0 false;
   Person.mk 500 248 0 (-1) false].

(** Camera 1 with a synthetic source whose worker has queued one frame and
    is inside its second pass, before the [put] of the second frame. *)
Definition worker_before_put : system :=
  run quiet_env
    (SetIp 1 (Some "10.0.0.1") :: WorkerStep 0
       :: replicate 19 (WorkerAction 0)) initial.


(** A model that finds one person in the first picture of a file and two
    persons in every other picture. *)
Definition counting_model : yolo := λ frame,
  Return [YoloResult
            (Some match source frame with
                  | Decoded 0 => [Box 0 0.9 (100, 100, 150, 300)%float]
                  | _ => [Box 0 0.9 (100, 100, 150, 300)%float;
                          Box 0 0.8 (300, 100, 350, 300)%float]
                  end)].

Definition counting_env : environment :=
  Environment (inr counting_model) (λ _ _, None) (λ _, three_frames)
    (λ _, 0.5%float) (λ _ t, pretty t) (λ t, pretty t).

(** Two files uploaded for camera 1, one after the other.  The first
    worker, in its first pass (one person), has read [max_people_count] and
    is about to assign it; the second worker has then made two passes (one
    person, then two). *)
Definition second_worker_ahead : system :=
  run counting_env
    (Upload (Some "a.mp4") 1 :: Upload (Some "b.mp4") 1
       :: replicate 6 (WorkerAction 0) ++ [WorkerStep 1; WorkerStep 1])
    initial.


(** [n] successive passes of one thread, with no step of another thread or
    of a request in between. *)
Fixpoint thread_steps (env : environment) (n : nat) (s : thread_state)
    (self : VideoProcessor) (st : store)
  : VideoProcessor * store * thread_state :=
  match n with
  | O => (self, st, s)
  | S n =>
      let '(self, st, s) := thread_step env s self st in
      thread_steps env n s self st
  end.

(** How a thread ends, by the outcome of its target. *)
Definition ended_by {A} (r : result A) : thread_state :=
  match r with
  | Return _ => Finished
  | Raise e => Died e
  | Waits => Stuck
  end.

(** The statements a worker that is inside a pass has still to execute,
    at most. *)
Definition remaining (s : thread_state) : nat :=
  match s with
  | Simulating _ _ _ todo _ _ _ => length todo + 17
  | InPass _ _ => 16
  | _ => 0
  end.

(** At most [n] statements of a worker one after the other, up to the end
    of the pass it is in, with no step of another thread in between. *)
Fixpoint thread_actions (env : environment) (n : nat) (s : thread_state)
    (self : VideoProcessor) (st : store)
  : VideoProcessor * store * thread_state :=
  match n with
  | O => (self, st, s)
  | S n =>
      if in_pass s then
        let '(self, st, s) := thread_action env s self st in
        thread_actions env n s self st
      else (self, st, s)
  end.

(** A pass statement by statement: the first statement of a worker, and
    the statements of the pass it is in after it. *)
Definition pass_by_statements (env : environment) (s : thread_state)
    (self : VideoProcessor) (st : store)
  : VideoProcessor * store * thread_state :=
  let '(self, st, s) := thread_action env s self st in
  thread_actions env (remaining s) s self st.



(** Whether a worker is at the head of its loop, before the test of the
    [while]. *)
Definition at_head (s : thread_state) : bool :=
  match s with
  | InVideoLoop _ | InIpLoop _ => true
  | _ => false
  end.

(** No [running] flag that is set is cleared. *)
Definition flags_kept (sys sys' : system) : Prop :=
  ∀ key p, video_processors sys !! key = Some p → running p = true →
    ∃ p', video_processors sys' !! key = Some p' ∧ running p' = true.


(** The references of a state all refer to something: a processor is stored
    under its camera id and refers to the queue of that camera and to a
    dictionary; [camera_status] refers to dictionaries; the target of a thread
    is a processor. *)
Definition well_formed (sys : system) : Prop :=
  (∀ key p, video_processors sys !! key = Some p →
     camera_id p = key ∧ frame_queue p = key
     ∧ is_Some (frame_queues (objects sys) !! key)
     ∧ is_Some (dicts (objects sys) !! status p))
  ∧ (∀ key l, camera_status sys !! key = Some l →
       is_Some (dicts (objects sys) !! l))
  ∧ (∀ tid t, threads sys !! tid = Some t →
       is_Some (video_processors sys !! target_self t)).

(** Whether the three comparisons of the fall test, computed in binary64,
    agree with the same comparisons in exact arithmetic
    ([5 h < 4 w], [5 (y1 + y2) > 6 frame_height], [10 h > 3 frame_height]),
    on machine integers, and a test of all the integers of a range. *)
Definition ratio_agrees (h w : int) : bool :=
  Bool.eqb (float_lt (of_uint63 h / of_uint63 w) 0.8)
           (5 * h <? 4 * w)%uint63.
Definition centre_agrees (s fh : int) : bool :=
  Bool.eqb (float_gt (of_uint63 s / of_uint63 2) (0.6 * of_uint63 fh))
           (6 * fh <? 5 * s)%uint63.
Definition height_agrees (h fh : int) : bool :=
  Bool.eqb (float_gt (of_uint63 h) (0.3 * of_uint63 fh))
           (3 * fh <? 10 * h)%uint63.
Fixpoint range_all (f : int → bool) (lo : int) (n : nat) : bool :=
  match n with
  | O => true
  | S n => f lo && range_all f (lo + 1)%uint63 n
  end.

(** * Properties *)

(** ** The frame queue *)

Section QueueFacts.
Context {A : Type}.
Implicit Types (q : Queue.t A) (x : A) (l frames : list A).

Lemma full_iff q :
  Queue.full q = true ↔ 0 < Queue.maxsize q ≤ Z.of_nat (length (Queue.items q)).
Proof. unfold Queue.full, Queue.qsize. rewrite andb_true_iff. lia. Qed.

Lemma full_false_iff q :
  Queue.full q = false ↔
  ¬ (0 < Queue.maxsize q ≤ Z.of_nat (length (Queue.items q))).
Proof. rewrite <- full_iff. destruct (Queue.full q); naive_solver. Qed.

(** A push into a bounded queue that holds no more than its bound returns:
    it keeps the newest [maxsize] of the old items and the new one. *)
Lemma enqueue_bounded q x :
  0 < Queue.maxsize q →
  Z.of_nat (length (Queue.items q)) ≤ Queue.maxsize q →
  enqueue q x =
    Return (Queue.mk (Queue.maxsize q)
              (drop (length (Queue.items q ++ [x]) - Z.to_nat (Queue.maxsize q))
                 (Queue.items q ++ [x]))).
Proof.
  intros Hpos Hle. unfold enqueue.
  destruct (Queue.full q) eqn:Hfull.
  - apply full_iff in Hfull.
    destruct q as [m [|y rest]]; simpl in *; [lia|].
    unfold Queue.put.
    assert (Queue.full (Queue.mk m rest) = false) as ->
      by (apply full_false_iff; simpl; lia).
    simpl. f_equal. f_equal. rewrite length_app. simpl.
    replace (S (length rest + 1) - Z.to_nat m)%nat with 1%nat by lia.
    reflexivity.
  - simpl. unfold Queue.put. rewrite Hfull. f_equal. f_equal.
    apply full_false_iff in Hfull. rewrite length_app. simpl.
    replace (length (Queue.items q) + 1 - Z.to_nat (Queue.maxsize q))%nat
      with 0%nat by lia.
    reflexivity.
Qed.

Lemma drop_newest_again l frames (n : nat) :
  drop (length (drop (length l - n) l ++ frames) - n)
       (drop (length l - n) l ++ frames)
  = drop (length (l ++ frames) - n) (l ++ frames).
Proof.
  destruct (decide (length l ≤ n)%nat) as [Hle|Hgt].
  - replace (length l - n)%nat with 0%nat by lia. reflexivity.
  - rewrite <- (drop_app_le l frames) by lia.
    rewrite drop_drop. f_equal.
    rewrite length_drop, !length_app. lia.
Qed.

(** Successive pushes keep the newest [maxsize] items, in arrival order. *)
Lemma enqueue_all_bounded frames : ∀ q,
  0 < Queue.maxsize q →
  Z.of_nat (length (Queue.items q)) ≤ Queue.maxsize q →
  enqueue_all q frames =
    Return (Queue.mk (Queue.maxsize q)
              (drop (length (Queue.items q ++ frames)
                     - Z.to_nat (Queue.maxsize q))
                 (Queue.items q ++ frames))).
Proof.
  induction frames as [|x frames IH]; intros q Hpos Hle.
  - simpl. rewrite app_nil_r.
    replace (length (Queue.items q) - Z.to_nat (Queue.maxsize q))%nat
      with 0%nat by lia.
    by destruct q.
  - cbn [enqueue_all]. rewrite enqueue_bounded by done. cbn [mbind result_bind].
    rewrite IH; cbn [Queue.maxsize Queue.items]; [|done|].
    + f_equal. f_equal. rewrite drop_newest_again.
      by rewrite <- app_assoc.
    + rewrite length_drop, length_app. simpl. lia.
Qed.

(** As many [get()] as there are items return them oldest first and leave
    the queue empty. *)
Lemma retrieve_all q :
  retrieve (length (Queue.items q)) q
  = Return (Queue.items q, Queue.mk (Queue.maxsize q) []).
Proof.
  destruct q as [m l]. simpl. induction l as [|x l IH]; [done|].
  simpl. by rewrite IH.
Qed.

End QueueFacts.

(** C6. A frame queue of capacity 10 into which a worker pushes 15 frames one
    after the other holds the last 10 of them in arrival order, and ten
    [get()] return them oldest first; no push waits: a push into a queue of
    capacity 10 that holds at most 10 frames always returns. *)
Theorem frame_sink_keeps_last_ten {A} (frames : list A) :
  length frames = 15%nat →
  (∃ q, enqueue_all (Queue.new 10) frames = Return q
        ∧ Queue.items q = drop 5 frames
        ∧ retrieve 10 q = Return (drop 5 frames, Queue.new 10))
  ∧ (∀ (q : Queue.t A) (x : A),
       Queue.maxsize q = 10 → (length (Queue.items q) ≤ 10)%nat →
       ∃ q', enqueue q x = Return q'
             ∧ (length (Queue.items q') ≤ 10)%nat
             ∧ Queue.maxsize q' = 10).
Proof.
  intros Hlen. split.
  - eexists. split; [|split].
    + apply enqueue_all_bounded; simpl; lia.
    + simpl. by rewrite Hlen.
    + cbn [Queue.new Queue.items Queue.maxsize app]. rewrite Hlen.
      change (15 - Z.to_nat 10)%nat with 5%nat.
      set (q := Queue.mk 10 (drop 5 frames)).
      assert (length (Queue.items q) = 10%nat) as Hq
        by (subst q; simpl; rewrite length_drop; lia).
      rewrite <- Hq. apply retrieve_all.
  - intros q x Hm Hq. eexists. split; [|split].
    + apply enqueue_bounded; lia.
    + simpl. rewrite length_drop, length_app. simpl. lia.
    + done.
Qed.

Lemma frame_sink_keeps_last_ten_witness :
  length (seq 0 15) = 15%nat
  ∧ ∃ q, enqueue_all (Queue.new 10) (seq 0 15) = Return q
         ∧ Queue.items q = [5; 6; 7; 8; 9; 10; 11; 12; 13; 14]%nat.
Proof.
  split; [reflexivity|].
  destruct (frame_sink_keeps_last_ten (seq 0 15) eq_refl)
    as [(q & Hq & Hitems & _) _].
  exists q. split; [exact Hq | exact Hitems].
Defined.

(** ** The fall classifier *)

(** Multiplication of binary64 numbers commutes, so [0.6 * frame_height]
    and [frame_height * 0.6] are the same float. *)
Lemma float_mul_comm (x y : float) : (x * y)%float = (y * x)%float.
Proof.
  apply Prim2SF_inj. rewrite !FloatAxioms.mul_spec.
  destruct (Prim2SF x) as [sx|sx| |sx mx ex],
           (Prim2SF y) as [sy|sy| |sy my ey];
    simpl; rewrite ?(xorb_comm sy sx); try reflexivity.
  by rewrite (Pos.mul_comm my mx), (Z.add_comm ey ex).
Qed.

(** One pass of the loop of [detect_fall] in terms of the fall test. *)
Lemma detect_fall_loop_cons frame d rest fall_detected fall_bbox :
  detect_fall_loop frame (d :: rest) fall_detected fall_bbox =
    falls ← fall_test (shape frame).1 d;
    if falls : bool then Return (true, Some (Detection.bbox d))
    else detect_fall_loop frame rest fall_detected fall_bbox.
Proof.
  cbn [detect_fall_loop]. unfold fall_test.
  destruct (Detection.bbox d) as [[[x1 y1] x2] y2].
  destruct (shape frame) as [frame_height frame_width]. cbn [fst].
  rewrite Z.gtb_ltb.
  destruct (0 <? x2 - x1); [|reflexivity].
  destruct (true_div (y2 - y1) (x2 - x1)) as [aspect_ratio| |]; [|done..].
  cbn [mbind result_bind].
  destruct (true_div (y1 + y2) 2) as [bbox_center_y| |]; [|done..].
  cbn [mbind result_bind].
  destruct (float_lt aspect_ratio 0.8); [|reflexivity].
  destruct (int_mul_float frame_height 0.6) as [low| |]; [|done..].
  cbn [mbind result_bind].
  destruct (float_gt bbox_center_y low); [|reflexivity].
  by destruct (int_mul_float frame_height 0.3) as [large| |].
Qed.

Lemma detect_fall_loop_none frame detections fall_detected fall_bbox :
  Forall (λ d, fall_test (shape frame).1 d = Return false) detections →
  detect_fall_loop frame detections fall_detected fall_bbox
  = Return (fall_detected, fall_bbox).
Proof.
  induction 1 as [|d rest Hd _ IH]; [done|].
  by rewrite detect_fall_loop_cons, Hd.
Qed.

Lemma detect_fall_loop_first frame before d after fall_detected fall_bbox :
  Forall (λ d', fall_test (shape frame).1 d' = Return false) before →
  fall_test (shape frame).1 d = Return true →
  detect_fall_loop frame (before ++ d :: after) fall_detected fall_bbox
  = Return (true, Some (Detection.bbox d)).
Proof.
  intros Hbefore Hd. induction Hbefore as [|d' before Hd' _ IH]; simpl app.
  - by rewrite detect_fall_loop_cons, Hd.
  - by rewrite detect_fall_loop_cons, Hd'.
Qed.

(** The loop stops at the first detection whose test raises, with what
    the test raises. *)
Lemma detect_fall_loop_raises frame before d after fall_detected fall_bbox e :
  Forall (λ d', fall_test (shape frame).1 d' = Return false) before →
  fall_test (shape frame).1 d = Raise e →
  detect_fall_loop frame (before ++ d :: after) fall_detected fall_bbox
  = Raise e.
Proof.
  intros Hbefore Hd. induction Hbefore as [|d' before Hd' _ IH]; simpl app.
  - by rewrite detect_fall_loop_cons, Hd.
  - by rewrite detect_fall_loop_cons, Hd'.
Qed.

Lemma detect_fall_loop_box frame detections fall_detected flag b :
  detect_fall_loop frame detections fall_detected None = Return (flag, Some b) →
  flag = true ∧ b ∈ Detection.bbox <$> detections.
Proof.
  induction detections as [|d rest IH]; [done|].
  rewrite detect_fall_loop_cons.
  destruct (fall_test _ d) as [[]| |]; simpl; [| |done..].
  - intros [= <- <-]. split; [done|]. apply list_elem_of_here.
  - intros Hb. destruct (IH Hb) as [? ?]. split; [done|].
    by apply list_elem_of_further.
Qed.

Lemma detect_fall_loop_shape frame1 frame2 detections fall_detected fall_bbox :
  shape frame1 = shape frame2 →
  detect_fall_loop frame1 detections fall_detected fall_bbox
  = detect_fall_loop frame2 detections fall_detected fall_bbox.
Proof.
  intros Hshape. induction detections as [|d rest IH]; [done|].
  by rewrite !detect_fall_loop_cons, Hshape, IH.
Qed.

(** No operation of the fall test waits: the test returns or raises, and so
    does the loop. *)
Lemma true_div_returns_or_raises a b : true_div a b ≠ Waits.
Proof.
  unfold true_div. destruct (b =? 0); [done|].
  destruct (_ && _); [done|]. by destruct (rounded_quotient a b).
Qed.

Lemma int_mul_float_returns_or_raises z x : int_mul_float z x ≠ Waits.
Proof.
  unfold int_mul_float, float_of_int. by destruct (is_infinity _).
Qed.

Lemma fall_test_returns_or_raises frame_height d :
  fall_test frame_height d ≠ Waits.
Proof.
  unfold fall_test. destruct (Detection.bbox d) as [[[x1 y1] x2] y2].
  destruct (0 <? x2 - x1); [|done].
  pose proof (true_div_returns_or_raises (y2 - y1) (x2 - x1)).
  destruct (true_div (y2 - y1) (x2 - x1)) as [aspect_ratio| |]; [|done..].
  pose proof (true_div_returns_or_raises (y1 + y2) 2).
  destruct (true_div (y1 + y2) 2) as [bbox_center_y| |]; [|done..].
  cbn [mbind result_bind].
  destruct (float_lt aspect_ratio 0.8); [|done].
  pose proof (int_mul_float_returns_or_raises frame_height 0.6).
  destruct (int_mul_float frame_height 0.6) as [low| |]; [|done..].
  cbn [mbind result_bind].
  destruct (float_gt bbox_center_y low); [|done].
  pose proof (int_mul_float_returns_or_raises frame_height 0.3).
  by destruct (int_mul_float frame_height 0.3) as [large| |].
Qed.

Lemma detect_fall_loop_returns_or_raises frame detections fall_detected
    fall_bbox :
  detect_fall_loop frame detections fall_detected fall_bbox ≠ Waits.
Proof.
  induction detections as [|d rest IH]; [done|].
  rewrite detect_fall_loop_cons.
  pose proof (fall_test_returns_or_raises (shape frame).1 d).
  by destruct (fall_test _ d) as [[]| |].
Qed.

(** ** The fall test in exact arithmetic *)

(** The conversion of a non-negative int is the primitive conversion. *)
Lemma double_of_int_uint63 (z : Z) :
  0 ≤ z < wB → double_of_int z = of_uint63 (Uint63.of_Z z).
Proof.
  intros Hz. unfold double_of_int.
  rewrite <- (SF2Prim_Prim2SF (of_uint63 (Uint63.of_Z z))).
  rewrite of_uint63_spec, Uint63.of_Z_spec, Z.mod_small by lia. done.
Qed.

(** Below [2^53] the division is the division of the converted operands,
    and below [2^48] the comparison is that of the converted int. *)
Lemma true_div_small (a b : Z) :
  0 ≤ a < 2 ^ 53 → 0 < b < 2 ^ 53 →
  true_div a b = Return (double_of_int a / double_of_int b)%float.
Proof.
  intros Ha Hb. unfold true_div.
  assert ((b =? 0) = false) as -> by lia.
  assert ((Z.abs a <? 2 ^ 53) = true) as -> by lia.
  assert ((Z.abs b <? 2 ^ 53) = true) as -> by lia.
  done.
Qed.

Lemma int_gt_float_small (z : Z) (x : float) :
  0 ≤ z < 2 ^ 48 → int_gt_float z x = float_gt (double_of_int z) x.
Proof.
  intros Hz. unfold int_gt_float.
  by assert ((Z.abs z <? 2 ^ 48) = true) as -> by lia.
Qed.

(** A test that passes on a range passes on every integer of the range. *)
Lemma range_all_sound (f : int → bool) (n : nat) : ∀ lo : int,
  Uint63.to_Z lo + Z.of_nat n < wB →
  range_all f lo n = true →
  ∀ z, Uint63.to_Z lo ≤ z < Uint63.to_Z lo + Z.of_nat n →
       f (Uint63.of_Z z) = true.
Proof.
  induction n as [|n IH]; intros lo Hbound Hall z Hz; [lia|].
  simpl in Hall. apply andb_true_iff in Hall as [Hlo Hrest].
  destruct (decide (z = Uint63.to_Z lo)) as [->|Hne].
  - by rewrite Uint63.of_to_Z.
  - pose proof (Uint63.to_Z_bounded lo).
    assert (Uint63.to_Z (lo + 1)%uint63 = Uint63.to_Z lo + 1) as Hnext.
    { rewrite Uint63.add_spec. change (Uint63.to_Z 1) with 1.
      apply Z.mod_small. lia. }
    apply (IH (lo + 1)%uint63); [lia|done|lia].
Qed.

Lemma uint63_scaled_ltb (a b x y : Z) :
  0 ≤ a → 0 ≤ b → 0 ≤ x → 0 ≤ y →
  a < wB → b < wB → x < wB → y < wB → a * x < wB → b * y < wB →
  (Uint63.of_Z a * Uint63.of_Z x <? Uint63.of_Z b * Uint63.of_Z y)%uint63
  = (a * x <? b * y).
Proof.
  intros. apply eq_true_iff_eq. rewrite Uint63.ltb_spec, Z.ltb_lt.
  rewrite !Uint63.mul_spec, !Uint63.of_Z_spec.
  rewrite !(Z.mod_small a), !(Z.mod_small b), !(Z.mod_small x),
    !(Z.mod_small y), !Z.mod_small by lia. done.
Qed.

(** The three comparisons agree on every height and width up to 2048, on
    every sum of two ordinates up to 4096, and for every frame height up to
    2048 (checked by evaluation). *)
Lemma ratio_checked :
  range_all (λ w, range_all (λ h, ratio_agrees h w) 0 (Z.to_nat 2049)) 1
    (Z.to_nat 2048) = true.
Proof. vm_compute. reflexivity. Qed.

Lemma centre_checked :
  range_all (λ fh, range_all (λ s, centre_agrees s fh) 0 (Z.to_nat 4097)) 0
    (Z.to_nat 2049) = true.
Proof. vm_compute. reflexivity. Qed.

Lemma height_checked :
  range_all (λ fh, range_all (λ h, height_agrees h fh) 0 (Z.to_nat 2049)) 0
    (Z.to_nat 2049) = true.
Proof. vm_compute. reflexivity. Qed.

(** The ints up to 2048 convert to finite floats (checked by evaluation). *)
Lemma finite_checked :
  range_all (λ z, negb (is_infinity (of_uint63 z))) 0 (Z.to_nat 2049) = true.
Proof. vm_compute. reflexivity. Qed.

Lemma wB_large : 100000 < wB.
Proof. reflexivity. Qed.

Lemma int_mul_float_small (z : Z) (x : float) :
  0 ≤ z ≤ 2048 →
  int_mul_float z x = Return (double_of_int z * x)%float.
Proof.
  intros Hz. pose proof wB_large.
  pose proof (range_all_sound _ (Z.to_nat 2049) 0%uint63 eq_refl
                finite_checked z) as Hcheck.
  change (Uint63.to_Z 0) with 0 in Hcheck. specialize (Hcheck ltac:(lia)).
  apply negb_true_iff in Hcheck.
  unfold int_mul_float, float_of_int.
  rewrite double_of_int_uint63 by lia. by rewrite Hcheck.
Qed.

Lemma ratio_exact (h w : Z) :
  0 ≤ h ≤ 2048 → 0 < w ≤ 2048 →
  float_lt (double_of_int h / double_of_int w) 0.8 = (5 * h <? 4 * w).
Proof.
  intros Hh Hw. pose proof wB_large.
  pose proof (range_all_sound _ (Z.to_nat 2048) 1%uint63 eq_refl
                ratio_checked w) as Hcheck.
  change (Uint63.to_Z 1) with 1 in Hcheck. specialize (Hcheck ltac:(lia)).
  apply (range_all_sound _ (Z.to_nat 2049) 0%uint63 eq_refl) with (z := h)
    in Hcheck; [|change (Uint63.to_Z 0) with 0; lia].
  apply eqb_prop in Hcheck.
  rewrite !double_of_int_uint63 by lia. rewrite Hcheck.
  change 5%uint63 with (Uint63.of_Z 5). change 4%uint63 with (Uint63.of_Z 4).
  apply uint63_scaled_ltb; lia.
Qed.

Lemma centre_exact (s frame_height : Z) :
  0 ≤ s ≤ 4096 → 0 ≤ frame_height ≤ 2048 →
  float_gt (double_of_int s / double_of_int 2)
    (double_of_int frame_height * 0.6)
  = (6 * frame_height <? 5 * s).
Proof.
  intros Hs Hfh. pose proof wB_large.
  pose proof (range_all_sound _ (Z.to_nat 2049) 0%uint63 eq_refl
                centre_checked frame_height) as Hcheck.
  change (Uint63.to_Z 0) with 0 in Hcheck. specialize (Hcheck ltac:(lia)).
  apply (range_all_sound _ (Z.to_nat 4097) 0%uint63 eq_refl) with (z := s)
    in Hcheck; [|change (Uint63.to_Z 0) with 0; lia].
  apply eqb_prop in Hcheck.
  rewrite (float_mul_comm _ 0.6).
  rewrite !double_of_int_uint63 by lia.
  change (Uint63.of_Z 2) with 2%uint63. rewrite Hcheck.
  change 6%uint63 with (Uint63.of_Z 6). change 5%uint63 with (Uint63.of_Z 5).
  apply uint63_scaled_ltb; lia.
Qed.

Lemma height_exact (h frame_height : Z) :
  0 ≤ h ≤ 2048 → 0 ≤ frame_height ≤ 2048 →
  float_gt (double_of_int h) (double_of_int frame_height * 0.3)
  = (3 * frame_height <? 10 * h).
Proof.
  intros Hh Hfh. pose proof wB_large.
  pose proof (range_all_sound _ (Z.to_nat 2049) 0%uint63 eq_refl
                height_checked frame_height) as Hcheck.
  change (Uint63.to_Z 0) with 0 in Hcheck. specialize (Hcheck ltac:(lia)).
  apply (range_all_sound _ (Z.to_nat 2049) 0%uint63 eq_refl) with (z := h)
    in Hcheck; [|change (Uint63.to_Z 0) with 0; lia].
  apply eqb_prop in Hcheck.
  rewrite (float_mul_comm _ 0.3).
  rewrite !double_of_int_uint63 by lia. rewrite Hcheck.
  change 3%uint63 with (Uint63.of_Z 3). change 10%uint63 with (Uint63.of_Z 10).
  apply uint63_scaled_ltb; lia.
Qed.

(** In frames and for boxes of up to 2048 pixels a side, the fall test of the
    program returns, and what it returns is the test in exact arithmetic: the
    roundings of binary64 never change the outcome of one of the three
    comparisons. *)
Lemma fall_test_exact (frame_height : Z) (d : Detection.t) (x1 y1 x2 y2 : Z) :
  Detection.bbox d = (x1, y1, x2, y2) →
  0 ≤ frame_height ≤ 2048 → 0 ≤ x1 ≤ x2 → x2 ≤ 2048 → 0 ≤ y1 ≤ y2 → y2 ≤ 2048 →
  fall_test frame_height d = Return (exact_fall_test frame_height d).
Proof.
  intros Hbox Hfh Hx1 Hx2 Hy1 Hy2. unfold fall_test, exact_fall_test.
  rewrite Hbox.
  destruct (0 <? x2 - x1) eqn:Hw; [|done]. apply Z.ltb_lt in Hw.
  rewrite !true_div_small, !int_mul_float_small by lia.
  cbn [mbind result_bind].
  rewrite ratio_exact by lia.
  destruct (5 * (y2 - y1) <? 4 * (x2 - x1)); [|done].
  rewrite centre_exact by lia.
  destruct (6 * frame_height <? 5 * (y1 + y2)); [|done].
  rewrite int_gt_float_small by lia. by rewrite height_exact by lia.
Qed.

(** C1. [detect_fall] scans the detections in input order.  A detection of
    non-positive width never qualifies; another one qualifies exactly when
    [height / width < 0.8], [(y1 + y2) / 2 > frame_height * 0.6] and
    [height > frame_height * 0.3], as Python computes them on ints of any
    size (the quotients rounded once, the int compared with the float as it
    is), which for frames and boxes of up to 2048 pixels a side is what they
    are in exact arithmetic.  The verdict is that of the first qualifying
    detection, whose box is the one returned; a returned box is always the
    box of an input detection, and comes with the flag set; without a
    qualifying detection the verdict is [(False, None)].  The only other
    outcome is the [OverflowError] of a division or of a conversion of ints
    too large for a float, which [detect_fall] lets through; the scan always
    ends. *)
Theorem detect_fall_first_qualifying (self : VideoProcessor)
    (detections : list Detection.t) (frame : ndarray) :
  let frame_height := (shape frame).1 in
  let qualifies := fall_test frame_height in
  (∀ d x1 y1 x2 y2, Detection.bbox d = (x1, y1, x2, y2) →
     (x2 - x1 ≤ 0 → qualifies d = Return false)
     ∧ (0 < x2 - x1 →
        ∀ aspect_ratio bbox_center_y low large,
          true_div (y2 - y1) (x2 - x1) = Return aspect_ratio →
          true_div (y1 + y2) 2 = Return bbox_center_y →
          int_mul_float frame_height 0.6 = Return low →
          int_mul_float frame_height 0.3 = Return large →
          qualifies d
          = Return (float_lt aspect_ratio 0.8
                    && float_gt bbox_center_y low
                    && int_gt_float (y2 - y1) large))
     ∧ (0 ≤ frame_height ≤ 2048 → 0 ≤ x1 ≤ x2 → x2 ≤ 2048 →
        0 ≤ y1 ≤ y2 → y2 ≤ 2048 →
        qualifies d = Return (exact_fall_test frame_height d)
        ∧ (exact_fall_test frame_height d = true ↔
             0 < x2 - x1
             ∧ 5 * (y2 - y1) < 4 * (x2 - x1)
             ∧ 6 * frame_height < 5 * (y1 + y2)
             ∧ 3 * frame_height < 10 * (y2 - y1))))
  ∧ (∀ before d after,
       detections = before ++ d :: after →
       Forall (λ d', qualifies d' = Return false) before →
       qualifies d = Return true →
       detect_fall self detections frame
       = Return (true, Some (Detection.bbox d)))
  ∧ (Forall (λ d, qualifies d = Return false) detections →
     detect_fall self detections frame = Return (false, None))
  ∧ (∀ before d after e,
       detections = before ++ d :: after →
       Forall (λ d', qualifies d' = Return false) before →
       qualifies d = Raise e →
       detect_fall self detections frame = Raise e)
  ∧ (∀ flag b,
       detect_fall self detections frame = Return (flag, Some b) →
       flag = true ∧ b ∈ Detection.bbox <$> detections)
  ∧ detect_fall self detections frame ≠ Waits.
Proof.
  intros frame_height qualifies. split_and!.
  - intros d x1 y1 x2 y2 Hbox. split; [|split].
    + unfold qualifies, fall_test. rewrite Hbox.
      intros Hw. assert ((0 <? x2 - x1) = false) as -> by lia. reflexivity.
    + unfold qualifies, fall_test. rewrite Hbox.
      intros Hw aspect_ratio bbox_center_y low large -> -> -> ->.
      assert ((0 <? x2 - x1) = true) as -> by lia.
      cbn [mbind result_bind].
      by destruct (float_lt aspect_ratio 0.8), (float_gt bbox_center_y low).
    + intros Hfh Hx1 Hx2 Hy1 Hy2. unfold qualifies.
      rewrite (fall_test_exact frame_height d x1 y1 x2 y2) by done.
      split; [done|]. unfold exact_fall_test. rewrite Hbox.
      rewrite !andb_true_iff, !Z.ltb_lt. tauto.
  - intros before d after -> Hbefore Hd.
    by apply detect_fall_loop_first.
  - apply detect_fall_loop_none.
  - intros before d after e -> Hbefore Hd.
    by apply detect_fall_loop_raises.
  - intros flag b Hb. by apply detect_fall_loop_box in Hb.
  - apply detect_fall_loop_returns_or_raises.
Qed.

Lemma detect_fall_first_qualifying_witness :
  detect_fall example_processor example_detections example_frame
  = Return (true, Some (100, 250, 400, 450)).
Proof.
  pose proof (detect_fall_first_qualifying example_processor
                example_detections example_frame) as (_ & Hfirst & _).
  apply (Hfirst (take 4 example_detections)
           (Detection.mk (100, 250, 400, 450) 0.9 4)
           (drop 5 example_detections)).
  - reflexivity.
  - repeat constructor.
  - reflexivity.
Defined.

(** The three comparisons are strict: in a frame of height 480, a box whose
    ratio is exactly 0.8, one whose centre is exactly at 288 and one whose
    height is exactly 144 do not qualify, while a box just inside the three
    bounds does. *)
Example fall_test_is_strict :
  let box x1 y1 x2 y2 := Detection.mk (x1, y1, x2, y2) 0.9 0 in
  fall_test 480 (box 0 250 250 450) = Return false
  ∧ fall_test 480 (box 0 188 300 388) = Return false
  ∧ fall_test 480 (box 0 300 300 444) = Return false
  ∧ fall_test 480 (box 0 250 251 450) = Return true
  ∧ fall_test 480 (box 0 189 300 388) = Return true
  ∧ fall_test 480 (box 0 300 300 445) = Return true.
Proof. vm_compute. done. Qed.

(** Beyond [2^53] a quotient is not the quotient of the rounded operands: a
    box [2^54 + 1] wide whose height is just below four fifths of its width
    qualifies, its ratio being [0.7999999999999999]; and a ratio too large
    for a float raises. *)
Example fall_test_of_large_ints :
  let frame := Image (480, 640) (Decoded 0) [] in
  true_div 14411518807585587 (2 ^ 54 + 1) = Return 0.79999999999999993%float
  ∧ detect_fall example_processor
      [Detection.mk (0, 300, 2 ^ 54 + 1, 14411518807585887) 0.9 0] frame
    = Return (true, Some (0, 300, 2 ^ 54 + 1, 14411518807585887))
  ∧ detect_fall example_processor
      [Detection.mk (0, 0, 1, 2 ^ 1100) 0.9 0] frame
    = Raise OverflowError.
Proof. vm_compute. done. Qed.

(** C9. [detect_fall] has no state: its verdict is the same for every
    processor it is called on and for every frame of the same dimensions, as
    long as the detections are the same. *)
Theorem detect_fall_deterministic (self1 self2 : VideoProcessor)
    (detections : list Detection.t) (frame1 frame2 : ndarray) :
  shape frame1 = shape frame2 →
  detect_fall self1 detections frame1 = detect_fall self2 detections frame2.
Proof. apply detect_fall_loop_shape. Qed.

Lemma detect_fall_deterministic_witness :
  detect_fall example_processor example_detections example_frame
  = detect_fall (Processor 3 3 false (Some 7%nat) None 2%nat [] 40 5 9)
      example_detections
      (Image (480, 640) Zeros [Fill (60, 63, 65)]).
Proof. apply detect_fall_deterministic. reflexivity. Defined.

(** ** The detector *)

(** A property of the loop state that every pass preserves holds when the
    loop ends. *)
Lemma for_each_invariant {A S} (P : S → Prop) (xs : list A)
    (body : A → S → result S) :
  (∀ x s s', x ∈ xs → P s → body x s = Return s' → P s') →
  ∀ s s', P s → for_each xs body s = Return s' → P s'.
Proof.
  induction xs as [|x xs IH]; intros Hbody s s' Hs; simpl.
  - by intros [= <-].
  - destruct (body x s) as [s1| |] eqn:Hx; simpl; [|done..].
    apply IH.
    + intros y t t' Hy. apply Hbody. by apply list_elem_of_further.
    + eapply Hbody; [apply list_elem_of_here|done..].
Qed.

Lemma inference_invariant_box results (b : yolo_box) s s' :
  b ∈ all_boxes results →
  inference_invariant results s →
  (let '(people_count, detections) := s in
   cls ← int_of_float (cls b);
   let conf := conf b in
   if (cls =? 0) && float_gt conf 0.5 then
     let people_count := people_count + 1 in
     let '(a, b, c, d) := xyxy b in
     x1 ← int_of_float a;
     y1 ← int_of_float b;
     x2 ← int_of_float c;
     y2 ← int_of_float d;
     Return (people_count,
             detections ++
               [Detection.mk (x1, y1, x2, y2) conf
                  (Z.of_nat (length detections))])
   else Return (people_count, detections)) = Return s' →
  inference_invariant results s'.
Proof.
  intros Hb Hs. destruct s as [people_count detections].
  destruct (int_of_float (cls b)) as [c| |] eqn:Hcls; simpl; [|done..].
  destruct (c =? 0) eqn:Hc; simpl; [|by intros [= <-]].
  destruct (float_gt (conf b) 0.5) eqn:Hconf; simpl; [|by intros [= <-]].
  destruct (xyxy b) as [[[fa fb] fc] fd] eqn:Hxyxy.
  destruct (int_of_float fa) as [x1| |] eqn:Hx1; simpl; [|done..].
  destruct (int_of_float fb) as [y1| |] eqn:Hy1; simpl; [|done..].
  destruct (int_of_float fc) as [x2| |] eqn:Hx2; simpl; [|done..].
  destruct (int_of_float fd) as [y2| |] eqn:Hy2; simpl; [|done..].
  intros [= <-]. destruct Hs as (Hcount & Hids & Hfrom); simpl in *.
  split; [|split]; simpl.
  - rewrite length_app. simpl. lia.
  - intros i d Hi. apply lookup_app_Some in Hi as [Hi|[Hge Hi]].
    + by apply Hids.
    + apply list_lookup_singleton_Some in Hi as [Hi <-]. simpl. lia.
  - apply Forall_app. split; [done|]. constructor; [|done].
    exists b. split; [done|]. split.
    + split; [|done]. rewrite Hcls. f_equal. lia.
    + unfold made_from. simpl. by rewrite Hxyxy.
Qed.

Lemma run_inference_invariant (m : yolo) frame results s :
  m frame = Return results →
  run_inference m frame = Return s →
  inference_invariant results s.
Proof.
  intros Hm. unfold run_inference. rewrite Hm. simpl.
  apply (for_each_invariant (inference_invariant results)).
  - intros r [people_count detections] s' Hr Hs.
    destruct (boxes r) as [bs|] eqn:Hbs; [|by intros [= <-]].
    apply (for_each_invariant (inference_invariant results)); [|done].
    intros b t t' Hb Ht. apply inference_invariant_box; [|done].
    apply list_elem_of_bind. exists r. by rewrite Hbs.
  - split; [done|]. split; [|constructor]. intros i d Hi. done.
Qed.

(** C4. [detect_people] never raises: without a model it returns
    [(frame, 0, [])], and so it does when the model call or anything else in
    the [try] raises; every detection it returns has a confidence above 0.5
    and is made from a box of the model's answer whose class is 0 (person)
    and whose confidence is above 0.5. *)
Theorem detect_people_filters_and_never_raises (self : VideoProcessor)
    (frame : ndarray) :
  (∀ e, detect_people self frame ≠ Raise e)
  ∧ (model self = None → detect_people self frame = Return (frame, 0, []))
  ∧ (∀ m e, model self = Some m →
       (m frame = Raise e ∨ run_inference m frame = Raise e) →
       detect_people self frame = Return (frame, 0, []))
  ∧ (∀ m results frame' people_count detections,
       model self = Some m → m frame = Return results →
       detect_people self frame = Return (frame', people_count, detections) →
       ∀ d, d ∈ detections →
         float_gt (Detection.confidence d) 0.5 = true
         ∧ ∃ b, b ∈ all_boxes results ∧ confident_person b ∧ made_from d b).
Proof.
  unfold detect_people. split; [|split; [|split]].
  - intros e. destruct (model self) as [m|]; [|done].
    by destruct (run_inference m frame) as [[??]| |].
  - by intros ->.
  - intros m e -> [Hm|Hrun].
    + unfold run_inference. by rewrite Hm.
    + by rewrite Hrun.
  - intros m results frame' people_count detections -> Hm.
    destruct (run_inference m frame) as [[n ds]| |] eqn:Hrun; [| |done].
    + intros [= <- <- <-] d Hd.
      destruct (run_inference_invariant _ _ _ _ Hm Hrun) as (_ & _ & Hfrom).
      rewrite Forall_forall in Hfrom.
      destruct (Hfrom d Hd) as (b & Hb & Hperson & Hmade).
      split; [|by exists b].
      destruct Hmade as [-> _]. apply Hperson.
    + intros [= <- <- <-] d Hd. by apply elem_of_nil in Hd.
Qed.

Lemma detect_people_filters_and_never_raises_witness :
  float_gt 0.9 0.5 = true
  ∧ ∃ b, b ∈ all_boxes [YoloResult (Some [Box 0 0.9 (100.6, 250.2, 400.9, 450)%float;
                                          Box 0 0.5 (1, 2, 3, 4)%float;
                                          Box 16 0.95 (5, 6, 7, 8)%float]);
                        YoloResult None;
                        YoloResult (Some [Box 0 0.75 (10, 20, 30.5, 40)%float])]
         ∧ confident_person b
         ∧ made_from (Detection.mk (100, 250, 400, 450) 0.9 0) b.
Proof.
  pose proof (detect_people_filters_and_never_raises sample_processor
                example_frame) as (_ & _ & _ & Hfrom).
  apply (Hfrom sample_model _ example_frame 2 sample_detections
           eq_refl eq_refl eq_refl (Detection.mk (100, 250, 400, 450) 0.9 0)).
  apply list_elem_of_here.
Defined.

(** The count and the [id]s of what [detect_people] returns. *)
Lemma detect_people_numbering (self : VideoProcessor)
    (frame frame' : ndarray) (people_count : Z)
    (detections : list Detection.t) :
  detect_people self frame = Return (frame', people_count, detections) →
  people_count = Z.of_nat (length detections)
  ∧ ∀ (i : nat) d, detections !! i = Some d → Detection.id d = Z.of_nat i.
Proof.
  intros Hdetect. unfold detect_people in Hdetect.
  destruct (model self) as [m|]; [|by injection Hdetect as <- <- <-].
  destruct (run_inference m frame) as [[n ds]| |] eqn:Hrun;
    [injection Hdetect as <- <- <-|by injection Hdetect as <- <- <-|done].
  destruct (m frame) as [results| |] eqn:Hm.
  - by destruct (run_inference_invariant _ _ _ _ Hm Hrun) as (? & ? & _).
  - unfold run_inference in Hrun. by rewrite Hm in Hrun.
  - unfold run_inference in Hrun. by rewrite Hm in Hrun.
Qed.

(** A loop none of whose passes waits does not wait. *)
Lemma for_each_never_waits {A S} (xs : list A) (body : A → S → result S) :
  (∀ y s, y ∈ xs → body y s ≠ Waits) →
  ∀ s, for_each xs body s ≠ Waits.
Proof.
  induction xs as [|y xs IH]; intros Hwaits s; [done|]. simpl.
  destruct (body y s) as [s1|e|] eqn:Hy; simpl; [|done|].
  - apply IH. intros z t Hz. apply Hwaits. by apply list_elem_of_further.
  - destruct (Hwaits y s); [apply list_elem_of_here|done].
Qed.

Lemma int_of_float_returns_or_raises x : int_of_float x ≠ Waits.
Proof. unfold int_of_float. by destruct (Prim2SF x). Qed.

(** Once the model has answered, nothing in the [try] waits: the body
    returns or raises. *)
Lemma run_inference_returns_or_raises (m : yolo) frame :
  m frame ≠ Waits → run_inference m frame ≠ Waits.
Proof.
  intros Hm. unfold run_inference.
  destruct (m frame) as [results| |]; [|done..]. simpl.
  apply for_each_never_waits. intros r [people_count detections] _.
  destruct (boxes r) as [bs|]; [|done].
  apply for_each_never_waits. intros b [pc dets] _.
  pose proof (int_of_float_returns_or_raises (cls b)).
  destruct (int_of_float (cls b)) as [c| |]; [|done..]. simpl.
  destruct ((c =? 0) && float_gt (conf b) 0.5); [|done].
  destruct (xyxy b) as [[[fx1 fy1] fx2] fy2].
  pose proof (int_of_float_returns_or_raises fx1).
  pose proof (int_of_float_returns_or_raises fy1).
  pose proof (int_of_float_returns_or_raises fx2).
  pose proof (int_of_float_returns_or_raises fy2).
  by destruct (int_of_float fx1), (int_of_float fy1), (int_of_float fx2),
              (int_of_float fy2).
Qed.

(** [detect_people] returns unless the call of the model does not. *)
Lemma detect_people_returns (self : VideoProcessor) (frame : ndarray) :
  (∀ m, model self = Some m → m frame ≠ Waits) →
  ∃ people_count detections,
    detect_people self frame = Return (frame, people_count, detections).
Proof.
  intros Hm. unfold detect_people.
  destruct (model self) as [m|]; [|by eexists _, _].
  pose proof (run_inference_returns_or_raises m frame (Hm m eq_refl)).
  destruct (run_inference m frame) as [[n ds]| |]; [| |done]; by eexists _, _.
Qed.

(** C10. On every frame for which the model produces results,
    [detect_people] returns, the count it returns is the number of
    detections it returns, and the [id] of each detection is its position in
    the list, from 0: the numbers [id + 1] of the labels run from 1.  The same
    holds of whatever else it returns (without a model, and after an
    exception it catches); it fails to return only when the call of the
    model does not return. *)
Theorem detect_people_count_and_ids (self : VideoProcessor)
    (frame : ndarray) :
  (∀ m results,
     model self = Some m → m frame = Return results →
     ∃ people_count detections,
       detect_people self frame = Return (frame, people_count, detections)
       ∧ people_count = Z.of_nat (length detections)
       ∧ (∀ (i : nat) d, detections !! i = Some d
                         → Detection.id d = Z.of_nat i)
       ∧ (λ d, Detection.id d + 1) <$> detections
         = seqZ 1 (Z.of_nat (length detections)))
  ∧ (∀ frame' people_count detections,
       detect_people self frame = Return (frame', people_count, detections) →
       people_count = Z.of_nat (length detections)
       ∧ (∀ (i : nat) d, detections !! i = Some d
                         → Detection.id d = Z.of_nat i)
       ∧ (λ d, Detection.id d + 1) <$> detections
         = seqZ 1 (Z.of_nat (length detections)))
  ∧ (detect_people self frame = Waits ↔
       ∃ m, model self = Some m ∧ m frame = Waits).
Proof.
  assert (∀ frame' people_count detections,
            detect_people self frame
            = Return (frame', people_count, detections) →
            people_count = Z.of_nat (length detections)
            ∧ (∀ (i : nat) d, detections !! i = Some d
                              → Detection.id d = Z.of_nat i)
            ∧ (λ d, Detection.id d + 1) <$> detections
              = seqZ 1 (Z.of_nat (length detections))) as Hnumbers.
  { intros frame' people_count detections Hdetect.
    destruct (detect_people_numbering _ _ _ _ _ Hdetect) as [Hn Hids].
    split; [done|]. split; [done|].
    apply list_eq. intros i. rewrite list_lookup_fmap.
    destruct (detections !! i) as [d|] eqn:Hi; simpl.
    - rewrite (Hids _ _ Hi). symmetry. apply lookup_seqZ.
      apply lookup_lt_Some in Hi. lia.
    - symmetry. apply lookup_seqZ_ge. apply lookup_ge_None in Hi. lia. }
  split; [|split; [done|]].
  - intros m results Hmodel Hm.
    destruct (detect_people_returns self frame)
      as (people_count & detections & Hdetect).
    { intros m' Hm'. rewrite Hmodel in Hm'. injection Hm' as <-.
      by rewrite Hm. }
    exists people_count, detections. split; [done|]. by eapply Hnumbers.
  - split.
    + intros Hwaits. unfold detect_people in Hwaits.
      destruct (model self) as [m|]; [|done]. exists m. split; [done|].
      destruct (m frame) as [results| |] eqn:Hm; [| |done].
      * pose proof (run_inference_returns_or_raises m frame) as Hrun.
        rewrite Hm in Hrun.
        by destruct (run_inference m frame) as [[??]| |]; [| |destruct Hrun].
      * unfold run_inference in Hwaits. by rewrite Hm in Hwaits.
    + intros (m & Hmodel & Hm). unfold detect_people, run_inference.
      by rewrite Hmodel, Hm.
Qed.

Lemma detect_people_count_and_ids_witness :
  ∃ people_count detections,
    detect_people sample_processor example_frame
    = Return (example_frame, people_count, detections)
    ∧ people_count = Z.of_nat (length detections)
    ∧ (∀ (i : nat) d, detections !! i = Some d → Detection.id d = Z.of_nat i)
    ∧ (λ d, Detection.id d + 1) <$> detections
      = seqZ 1 (Z.of_nat (length detections)).
Proof.
  pose proof (detect_people_count_and_ids sample_processor example_frame)
    as (Hreturns & _).
  apply (Hreturns sample_model
           [YoloResult (Some [Box 0 0.9 (100.6, 250.2, 400.9, 450)%float;
                              Box 0 0.5 (1, 2, 3, 4)%float;
                              Box 16 0.95 (5, 6, 7, 8)%float]);
            YoloResult None;
            YoloResult (Some [Box 0 0.75 (10, 20, 30.5, 40)%float])]);
    reflexivity.
Defined.

(** ** The effect of one pass of a worker *)

Lemma counters_le_refl p : counters_le p p.
Proof. unfold counters_le. lia. Qed.

Lemma counters_le_trans p1 p2 p3 :
  counters_le p1 p2 → counters_le p2 p3 → counters_le p1 p3.
Proof. unfold counters_le. lia. Qed.

Lemma pass_effect_refl self st : pass_effect self st self st.
Proof. split; first [done | apply counters_le_refl]. Qed.

Lemma pass_effect_trans self1 st1 self2 st2 self3 st3 :
  pass_effect self1 st1 self2 st2 → pass_effect self2 st2 self3 st3 →
  pass_effect self1 st1 self3 st3.
Proof.
  intros [c1 q1 r1 t1 m1 s1 n1 dk1 dd1 qd1]
         [c2 q2 r2 t2 m2 s2 n2 dk2 dd2 qd2].
  split; [congruence..| | | |].
  - by eapply counters_le_trans.
  - intros l key Hkey. rewrite dk2 by done. by apply dk1.
  - intros l. rewrite dd2. apply dd1.
  - intros k. rewrite qd2. apply qd1.
Qed.

Lemma one_pass_bind {A B} (m : method A) (k : A → method B) :
  one_pass m → (∀ a, one_pass (k a)) → one_pass (m ≫= k).
Proof.
  intros Hm Hk self st. specialize (Hm self st).
  unfold mbind, method_bind.
  destruct (m self st) as [[self1 st1] [a|e|]]; simpl in *; [|done..].
  eapply pass_effect_trans; [done|]. apply Hk.
Qed.

Lemma one_pass_ret {A} (a : A) : one_pass (mret a).
Proof. intros self st. apply pass_effect_refl. Qed.

Lemma one_pass_lift {A} (r : result A) : one_pass (lift r).
Proof. intros self st. apply pass_effect_refl. Qed.

(** With the processor at hand: [get_self] followed by a body. *)
Lemma one_pass_get_self {A} (k : VideoProcessor → method A) :
  (∀ self st, pass_effect self st (k self self st).1.1 (k self self st).1.2) →
  one_pass (get_self ≫= k).
Proof. intros Hk self st. apply Hk. Qed.

Lemma one_pass_datetime_now : one_pass datetime_now.
Proof. intros self st. split; first [done | apply counters_le_refl]. Qed.

(** Case analysis on the outcome of the next drawing call, or of the
    division of the average. *)
Ltac next_cv2_call :=
  match goal with
  | |- context [cv2_raises ?env ?op ?img] =>
      destruct (cv2_raises env op img) eqn:?; simpl
  | |- context [true_div ?a ?b] =>
      destruct (true_div a b) eqn:?; simpl
  end.

Ltac unfold_method :=
  unfold mbind, method_bind, mret, method_ret, lift, get_self, put_self,
    get_store, put_store, datetime_now, cv2_call, now; simpl.

(** [draw_statistics] updates the three counters first, whatever happens to
    the drawing, and leaves the dictionaries and the queues alone. *)
Lemma draw_statistics_state env frame people_count fall_detected self st :
  let r := draw_statistics env frame people_count fall_detected self st in
  r.1.1 = set_counters (total_people_count self + people_count)
            (Z.max (max_people_count self) people_count)
            (frame_count self + 1) self
  ∧ dicts r.1.2 = dicts st
  ∧ frame_queues r.1.2 = frame_queues st.
Proof.
  unfold draw_statistics. destruct (shape frame) as [height width].
  destruct fall_detected; unfold_method; repeat next_cv2_call; done.
Qed.

(** An update of the counters that lowers none of them, with the
    dictionaries and the queues untouched, is the effect of a pass. *)
Lemma pass_effect_counters self st st' total maxi frames :
  total_people_count self ≤ total → max_people_count self ≤ maxi →
  frame_count self ≤ frames →
  dicts st' = dicts st → frame_queues st' = frame_queues st →
  pass_effect self st (set_counters total maxi frames self) st'.
Proof.
  intros ??? Hd Hq. split; [done|done|done|done|done|done| | | | ].
  - unfold counters_le. simpl. lia.
  - intros l key _. unfold dict_entry. by rewrite Hd.
  - intros l. by rewrite Hd.
  - intros k. by rewrite Hq.
Qed.

(** A change of the store that leaves the dictionaries and the queues alone
    is the effect of a pass. *)
Lemma pass_effect_store self st st' :
  dicts st' = dicts st → frame_queues st' = frame_queues st →
  pass_effect self st self st'.
Proof.
  intros Hd Hq. split; [done|done|done|done|done|done| | | | ].
  - apply counters_le_refl.
  - intros l key _. unfold dict_entry. by rewrite Hd.
  - intros l. by rewrite Hd.
  - intros k. by rewrite Hq.
Qed.

Lemma one_pass_draw_statistics env frame people_count fall_detected :
  0 ≤ people_count →
  one_pass (draw_statistics env frame people_count fall_detected).
Proof.
  intros Hcount self st.
  destruct (draw_statistics_state env frame people_count fall_detected self st)
    as (-> & Hd & Hq).
  apply pass_effect_counters; [lia..|done|done].
Qed.

Lemma one_pass_draw_detections env frame detections people_count
    fall_detected fall_bbox :
  0 ≤ people_count →
  one_pass (draw_detections env frame detections people_count fall_detected
              fall_bbox).
Proof.
  intros Hcount. unfold draw_detections. apply one_pass_bind.
  - apply one_pass_lift.
  - intros frame_copy. by apply one_pass_draw_statistics.
Qed.

(** The status update as a function of the state before. *)
Lemma write_status_state env people_count fall_detected self st :
  write_status env people_count fall_detected self st
  = (self,
     Store
       (alter (λ d, <["timestamp" := PStr (isoformat env (clock st))]>
                      (<["fall" := PBool fall_detected]>
                         (<["count" := PInt people_count]> d)))
          (status self) (dicts st))
       (frame_queues st) (clock st + 1) (random_calls st),
     Return ()).
Proof. reflexivity. Qed.

Lemma one_pass_write_status env people_count fall_detected :
  one_pass (write_status env people_count fall_detected).
Proof.
  intros self st. rewrite write_status_state. simpl.
  split; simpl;
    [done|done|done|done|done|done|apply counters_le_refl| | |done].
  - intros l key Hkey. unfold dict_entry. simpl.
    rewrite lookup_alter. case_decide as Hl; [|done]. subst l.
    destruct (dicts st !! status self) as [d|]; [|done]. simpl.
    rewrite !lookup_insert_ne; [done|intros <-; apply Hkey; compute_done..].
  - intros l. rewrite lookup_alter. case_decide as Hl; [|done]. subst l.
    apply fmap_is_Some.
Qed.

Lemma one_pass_push_frame processed_frame : one_pass (push_frame processed_frame).
Proof.
  intros self st. unfold push_frame. unfold_method.
  destruct (frame_queues st !! frame_queue self) as [q|] eqn:Hq; simpl;
    [|apply pass_effect_refl].
  destruct (enqueue q processed_frame) as [q'| |]; simpl;
    [|apply pass_effect_refl..].
  split; simpl;
    [done|done|done|done|done|done|apply counters_le_refl|done|done| ].
  intros k. destruct (decide (frame_queue self = k)) as [<-|Hne].
  - rewrite lookup_insert_eq, Hq. split; eauto.
  - by rewrite lookup_insert_ne.
Qed.

Lemma one_pass_publish env frame detections people_count fall_detected
    fall_bbox :
  0 ≤ people_count →
  one_pass (publish env frame detections people_count fall_detected fall_bbox).
Proof.
  intros Hcount. unfold publish. apply one_pass_bind.
  - by apply one_pass_draw_detections.
  - intros processed_frame. apply one_pass_bind.
    + apply one_pass_write_status.
    + intros _. apply one_pass_push_frame.
Qed.

Lemma detect_people_count_nonneg self frame frame' people_count detections :
  detect_people self frame = Return (frame', people_count, detections) →
  0 ≤ people_count.
Proof.
  intros Hdetect.
  destruct (detect_people_numbering _ _ _ _ _ Hdetect) as [-> _]. lia.
Qed.

(** The body of the video loop, by the outcome of the detection. *)
Lemma process_frame_unfold env frame self st :
  process_frame env frame self st =
    match detect_people self frame with
    | Return (frame, people_count, detections) =>
        match detect_fall self detections frame with
        | Return (fall_detected, fall_bbox) =>
            publish env frame detections people_count fall_detected fall_bbox
              self st
        | Raise e => (self, st, Raise e)
        | Waits => (self, st, Waits)
        end
    | Raise e => (self, st, Raise e)
    | Waits => (self, st, Waits)
    end.
Proof.
  unfold process_frame, mbind, method_bind, get_self, lift.
  destruct (detect_people self frame) as [[[frame' people_count] detections]| |];
    [|done..].
  by destruct (detect_fall self detections frame') as [[]| |].
Qed.

Lemma one_pass_process_frame env frame : one_pass (process_frame env frame).
Proof.
  intros self st. rewrite process_frame_unfold.
  destruct (detect_people self frame) as [[[frame' people_count] detections]| |]
    eqn:Hdetect; [|apply pass_effect_refl..].
  destruct (detect_fall self detections frame')
    as [[fall_detected fall_bbox]| |]; [|apply pass_effect_refl..].
  apply one_pass_publish. by eapply detect_people_count_nonneg.
Qed.

Lemma one_pass_simulate_person env i person :
  one_pass (simulate_person env i person).
Proof. intros self st. by apply pass_effect_store. Qed.

Lemma one_pass_simulate_people env person_positions :
  ∀ i detections fall_detected fall_bbox,
  one_pass (simulate_people env i person_positions detections fall_detected
              fall_bbox).
Proof.
  induction person_positions as [|person rest IH]; intros; simpl.
  - apply one_pass_ret.
  - apply one_pass_bind; [apply one_pass_simulate_person|].
    intros [person' detection].
    destruct (Person.fallen person').
    + apply one_pass_bind; [apply IH|]. intros [[[? ?] ?] ?]. apply one_pass_ret.
    + apply one_pass_bind; [apply IH|]. intros [[[? ?] ?] ?]. apply one_pass_ret.
Qed.

Lemma one_pass_synthesize_frame env person_positions :
  one_pass (synthesize_frame env person_positions).
Proof.
  unfold synthesize_frame. apply one_pass_bind; [apply one_pass_lift|].
  intros frame. apply one_pass_bind; [apply one_pass_simulate_people|].
  intros [[[people detections] fall_detected] fall_bbox].
  apply one_pass_bind; [|intros; apply one_pass_ret].
  apply one_pass_publish. lia.
Qed.

(** One pass of a thread has the effect of a pass, whatever its state. *)
Lemma thread_step_effect env s self st :
  pass_effect self st (thread_step env s self st).1.1
    (thread_step env s self st).1.2.
Proof.
  destruct s as [cap|person_positions|frame i moved todo detections
                   fall_detected fall_bbox|next pt| | |e]; simpl;
    try apply pass_effect_refl.
  - destruct (running self && isOpened cap); [|apply pass_effect_refl].
    destruct (pending cap) as [|frame rest]; [apply pass_effect_refl|].
    pose proof (one_pass_process_frame env frame self st) as Hpass.
    by destruct (process_frame env frame self st) as [[self' st'] [[]|e|]].
  - destruct (running self); [|apply pass_effect_refl].
    pose proof (one_pass_synthesize_frame env person_positions self st) as Hpass.
    by destruct (synthesize_frame env person_positions self st)
      as [[self' st'] [people|e|]].
Qed.

(** ** The running statistics *)




(** ** The effect of the workers on the system *)

Lemma same_but_counters_refl p : same_but_counters p p.
Proof. by unfold same_but_counters. Qed.

Lemma same_but_counters_trans p1 p2 p3 :
  same_but_counters p1 p2 → same_but_counters p2 p3 →
  same_but_counters p1 p3.
Proof.
  intros (? & ? & ? & ? & ?) (? & ? & ? & ? & ?).
  unfold same_but_counters. split_and!; congruence.
Qed.

Lemma store_effect_refl st : store_effect st st.
Proof. unfold store_effect. tauto. Qed.

Lemma store_effect_trans st1 st2 st3 :
  store_effect st1 st2 → store_effect st2 st3 → store_effect st1 st3.
Proof.
  intros (Hk1 & Hd1 & Hq1) (Hk2 & Hd2 & Hq2). split; [|split].
  - intros l key Hkey. rewrite Hk2 by done. by apply Hk1.
  - intros l. rewrite Hd2. apply Hd1.
  - intros k. rewrite Hq2. apply Hq1.
Qed.

Lemma pass_effect_processor self st self' st' :
  pass_effect self st self' st' → same_but_counters self self'.
Proof. intros []. unfold same_but_counters. tauto. Qed.

Lemma pass_effect_store_part self st self' st' :
  pass_effect self st self' st' → store_effect st st'.
Proof. intros []. unfold store_effect. tauto. Qed.

(** A change of the store that leaves the dictionaries and the queues
    alone. *)
Lemma store_effect_same st st' :
  dicts st' = dicts st → frame_queues st' = frame_queues st →
  store_effect st st'.
Proof.
  intros Hd Hq. unfold store_effect, dict_entry. rewrite Hd, Hq. tauto.
Qed.

(** An assignment to one of the three entries a worker writes. *)
Lemma store_effect_write st st' l key v :
  key ∈ ["count"; "fall"; "timestamp"] →
  dicts st' = alter (λ d, <[key := v]> d) l (dicts st) →
  frame_queues st' = frame_queues st →
  store_effect st st'.
Proof.
  intros Hkey Hd Hq. unfold store_effect, dict_entry. rewrite Hd, Hq.
  split; [|split; [|done]].
  - intros l' key' Hkey'. rewrite lookup_alter.
    case_decide as Hl; [|done]. subst l'.
    destruct (dicts st !! l) as [d|]; [|done]. simpl.
    rewrite lookup_insert_ne; [done|]. by intros <-.
  - intros l'. rewrite lookup_alter. case_decide as Hl; [|done]. subst l'.
    apply fmap_is_Some.
Qed.

(** A new value of a queue that is there. *)
Lemma store_effect_queue st st' k q :
  is_Some (frame_queues st !! k) →
  dicts st' = dicts st →
  frame_queues st' = <[k := q]> (frame_queues st) →
  store_effect st st'.
Proof.
  intros Hk Hd Hq. unfold store_effect, dict_entry. rewrite Hd, Hq.
  split; [done|]. split; [done|].
  intros k'. destruct (decide (k = k')) as [<-|Hne].
  - rewrite lookup_insert_eq. split; eauto.
  - by rewrite lookup_insert_ne.
Qed.

Ltac same_processor :=
  split; [first [apply same_but_counters_refl | by unfold same_but_counters]|].
Ltac unchanged := same_processor; apply store_effect_refl.

(** A statement of a pass changes of the processor nothing but a counter,
    and of the store what a pass may change. *)
Lemma pass_statement_effect env next pt self st :
  let r := pass_statement env next pt self st in
  same_but_counters self r.1.1 ∧ store_effect st r.1.2.
Proof.
  destruct pt; simpl; repeat (destruct (shape _)); simpl;
    try unchanged.
  - same_processor. by apply store_effect_same.
  - same_processor.
    eapply (store_effect_write _ _ _ "count"); [compute_done|done..].
  - same_processor.
    eapply (store_effect_write _ _ _ "fall"); [compute_done|done..].
  - same_processor.
    eapply (store_effect_write _ _ _ "timestamp"); [compute_done|done..].
  - unfold the_queue.
    destruct (frame_queues st !! frame_queue self) as [q|] eqn:Hq; simpl;
      [|unchanged].
    destruct (Queue.get q) as [[x q']| |]; simpl;
      [|unchanged..].
    same_processor. by eapply store_effect_queue.
  - unfold the_queue.
    destruct (frame_queues st !! frame_queue self) as [q|] eqn:Hq; simpl;
      [|unchanged].
    destruct (Queue.put processed_frame q) as [q'| |]; simpl;
      [|unchanged..].
    same_processor. by eapply store_effect_queue.
Qed.

Lemma statement_effect env s self st :
  let r := statement env s self st in
  same_but_counters self r.1.1 ∧ store_effect st r.1.2.
Proof.
  destruct s as [cap|person_positions|frame i moved todo detections
                   fall_detected fall_bbox|next pt| | |e];
    cbn [statement]; try unchanged.
  - destruct (running self && isOpened cap);
      [destruct (pending cap)|]; unchanged.
  - destruct (running self); unchanged.
  - destruct todo as [|person todo]; [unchanged|].
    pose proof (one_pass_simulate_person env i person self st) as Hpass.
    destruct (simulate_person env i person self st)
      as [[self' st'] [[person' detection]| |]];
      [destruct (Person.fallen person')|..];
      (split; [by eapply pass_effect_processor
              |by eapply pass_effect_store_part]).
  - apply pass_statement_effect.
Qed.

Lemma thread_action_effect env s self st :
  let r := thread_action env s self st in
  same_but_counters self r.1.1 ∧ store_effect st r.1.2.
Proof.
  unfold thread_action. pose proof (statement_effect env s self st) as H.
  by destruct (statement env s self st) as [[self' st'] [s'|e'|]].
Qed.

Lemma workers_effect_refl sys : workers_effect sys sys.
Proof.
  split; [done| |apply store_effect_refl|done].
  intros key. destruct (video_processors sys !! key); constructor.
  apply same_but_counters_refl.
Qed.

Lemma workers_effect_trans sys1 sys2 sys3 :
  workers_effect sys1 sys2 → workers_effect sys2 sys3 →
  workers_effect sys1 sys3.
Proof.
  intros [Hc1 Hp1 Hs1 Ht1] [Hc2 Hp2 Hs2 Ht2]. split.
  - congruence.
  - intros key. specialize (Hp1 key). specialize (Hp2 key).
    destruct Hp1 as [p1 p2 H12|]; inversion Hp2; subst; constructor.
    by eapply same_but_counters_trans.
  - by eapply store_effect_trans.
  - congruence.
Qed.

(** A step of a thread on its processor, put back into the system. *)
Lemma thread_effect sys tid t self self' st' s' :
  threads sys !! tid = Some t →
  video_processors sys !! target_self t = Some self →
  same_but_counters self self' → store_effect (objects sys) st' →
  workers_effect sys
    (System st' (<[target_self t := self']> (video_processors sys))
       (camera_status sys) (<[tid := Thread (target_self t) s']> (threads sys))).
Proof.
  intros Ht Hself Hp Hs. split; simpl.
  - done.
  - intros key. destruct (decide (target_self t = key)) as [<-|Hne].
    + rewrite lookup_insert_eq, Hself. by constructor.
    + rewrite lookup_insert_ne by done.
      destruct (video_processors sys !! key); constructor.
      apply same_but_counters_refl.
  - done.
  - rewrite list_fmap_insert. simpl. apply list_insert_id.
    by rewrite list_lookup_fmap, Ht.
Qed.

Lemma worker_step_effect env tid sys :
  workers_effect sys (worker_step env tid sys).
Proof.
  unfold worker_step.
  destruct (threads sys !! tid) as [t|] eqn:Ht; [|apply workers_effect_refl].
  destruct (status_lock_held _ _); [apply workers_effect_refl|].
  destruct (video_processors sys !! target_self t) as [self|] eqn:Hself;
    [|apply workers_effect_refl].
  pose proof (thread_step_effect env (state t) self (objects sys)) as Hpass.
  destruct (thread_step env (state t) self (objects sys)) as [[self' st'] s'].
  simpl in Hpass. apply (thread_effect _ _ _ self); [done|done| |].
  - by eapply pass_effect_processor.
  - by eapply pass_effect_store_part.
Qed.

Lemma worker_action_effect env tid sys :
  workers_effect sys (worker_action env tid sys).
Proof.
  unfold worker_action.
  destruct (threads sys !! tid) as [t|] eqn:Ht; [|apply workers_effect_refl].
  destruct (_ && _); [apply workers_effect_refl|].
  destruct (video_processors sys !! target_self t) as [self|] eqn:Hself;
    [|apply workers_effect_refl].
  pose proof (thread_action_effect env (state t) self (objects sys)) as Hact.
  destruct (thread_action env (state t) self (objects sys))
    as [[self' st'] s'].
  simpl in Hact. destruct Hact. by apply (thread_effect _ _ _ self).
Qed.



(** ** Stopping a processor *)

Lemma stop_action_effect env self p tk sys :
  workers_effect sys (stop_action env self p tk sys).1.
Proof.
  destruct tk as [tid|ms|]; simpl;
    [apply worker_action_effect|apply workers_effect_refl|].
  destruct p as [tid elapsed| | |]; simpl.
  - destruct (threads sys !! tid); apply workers_effect_refl.
  - destruct (frame_queues _ !! _); apply workers_effect_refl.
  - destruct (frame_queues (objects sys) !! frame_queue self) as [q|] eqn:Hq;
      [|apply workers_effect_refl].
    destruct (Queue.get_nowait q) as [[x q']| |];
      [|apply workers_effect_refl..].
    split; simpl; [done| |by eapply store_effect_queue|done].
    intros key. destruct (video_processors sys !! key); constructor.
    apply same_but_counters_refl.
  - apply workers_effect_refl.
Qed.

Lemma stop_run_effect env self during : ∀ p sys,
  workers_effect sys (stop_run env self during p sys).1.
Proof.
  induction during as [|tk during IH]; intros p sys.
  - destruct p; apply workers_effect_refl.
  - pose proof (stop_action_effect env self p tk sys) as Hstep.
    destruct p; simpl; try apply workers_effect_refl;
      destruct (stop_action env self _ tk sys) as [sys1 p1];
      (eapply workers_effect_trans; [exact Hstep|apply IH]).
Qed.



(** The schedule of [stop] can be cut anywhere. *)
Lemma stop_run_app env self during1 during2 : ∀ p sys,
  stop_run env self (during1 ++ during2) p sys
  = stop_run env self during2 (stop_run env self during1 p sys).2
      (stop_run env self during1 p sys).1.
Proof.
  induction during1 as [|tk during1 IH]; intros p sys.
  - by destruct p, during2.
  - destruct p; simpl; try (by destruct during2);
      destruct (stop_action env self _ tk sys) as [sys1 p1]; apply IH.
Qed.

Lemma empty_items {A} (q : Queue.t A) :
  Queue.empty q = true ↔ Queue.items q = [].
Proof.
  unfold Queue.empty, Queue.qsize. by destruct (Queue.items q).
Qed.

(** [stop] returns from the test of its loop, when it finds the queue
    empty. *)
Lemma stop_run_returns env self during : ∀ p sys,
  p ≠ Stopped →
  is_Some (frame_queues (objects sys) !! frame_queue self) →
  (stop_run env self during p sys).2 = Stopped →
  ∃ q', frame_queues (objects (stop_run env self during p sys).1)
          !! frame_queue self = Some q'
        ∧ Queue.items q' = [].
Proof.
  induction during as [|tk during IH]; intros p sys Hp Hq Hstopped.
  - by destruct p.
  - assert (stop_run env self (tk :: during) p sys
            = stop_run env self during (stop_action env self p tk sys).2
                (stop_action env self p tk sys).1) as Hrun.
    { destruct p; [..|done]; simpl;
        by destruct (stop_action env self _ tk sys). }
    rewrite Hrun in *. clear Hrun.
    pose proof (stop_action_effect env self p tk sys) as [_ _ (_ & _ & Hdom) _].
    assert ((stop_action env self p tk sys).2 = Stopped
            ∨ (stop_action env self p tk sys).2 ≠ Stopped) as [Hnow|Hlater]
      by (destruct (stop_action env self p tk sys).2; (by left) || (by right)).
    + rewrite Hnow. assert (∀ sys', stop_run env self during Stopped sys'
                                     = (sys', Stopped)) as -> by by destruct during.
      simpl. clear IH Hstopped Hdom.
      destruct tk as [tid|ms|]; simpl in *; [done|by destruct p|].
      destruct p as [tid elapsed| | |]; simpl in *; [| | |done].
      * destruct (threads sys !! tid) as [t|]; [|done].
        simpl in Hnow. by destruct (join t 2 elapsed).
      * destruct Hq as [q Hq]. rewrite Hq in *. simpl in *.
        destruct (Queue.empty q) eqn:Hempty; [|done].
        exists q. split; [done|]. by apply empty_items.
      * destruct (frame_queues _ !! _) as [q|]; [|done].
        by destruct (Queue.get_nowait q) as [[x q']| |].
    + apply IH; [done| |done]. by apply Hdom.
Qed.

(** The loop at the end of [stop] needs two steps for each frame of the
    queue and one more. *)
Lemma stop_run_drains env self (frames : list ndarray) : ∀ sys maxsize,
  frame_queues (objects sys) !! frame_queue self
  = Some (Queue.mk maxsize frames) →
  (stop_run env self (replicate (2 * length frames + 1) Own) TestingEmpty
     sys).2 = Stopped.
Proof.
  induction frames as [|frame frames IH]; intros sys maxsize Hq.
  - simpl. by rewrite Hq.
  - replace (2 * length (frame :: frames) + 1)%nat
      with (S (S (2 * length frames + 1))) by (simpl; lia).
    cbn [replicate stop_run stop_action]. rewrite Hq.
    cbn [Queue.empty Queue.qsize Queue.items length]. 
    replace (Z.of_nat (S (length frames)) =? 0) with false
      by (symmetry; apply Z.eqb_neq; lia).
    cbn [stop_run stop_action]. rewrite Hq.
    cbn [Queue.get_nowait Queue.items Queue.maxsize].
    apply (IH _ maxsize). simpl. apply lookup_insert_eq.
Qed.



(** [stop] as a function of the state in which it starts to wait. *)
Lemma stop_unfold env key during sys self :
  video_processors sys !! key = Some self →
  stop env key during sys
  = let r := stop_run env self during
               match process_thread self with
               | Some tid => Joining tid 0
               | None => TestingEmpty
               end
               (System (objects sys)
                  (<[key := set_running false self]> (video_processors sys))
                  (camera_status sys) (threads sys)) in
    (r.1, match r.2 with
          | Stopped => Return ()
          | _ => Waits
          end).
Proof.
  intros Hself. unfold stop. rewrite Hself.
  by destruct (stop_run env self during _ _).
Qed.

(** The processor after [stop], whether or not [stop] has returned: its flag
    is cleared, and nothing else of it has changed but the counters. *)
Lemma stop_processor env key during sys self :
  video_processors sys !! key = Some self →
  ∃ self', video_processors (stop env key during sys).1 !! key = Some self'
           ∧ same_but_counters (set_running false self) self'.
Proof.
  intros Hself. rewrite (stop_unfold _ _ _ _ _ Hself). simpl.
  match goal with
  | |- context [stop_run env self during ?p ?s] =>
      pose proof (stop_run_effect env self during p s) as [_ Hprocs _ _]
  end.
  specialize (Hprocs key). simpl in Hprocs. rewrite lookup_insert_eq in Hprocs.
  inversion Hprocs as [? self' Hsame Heq1 Heq2|]; subst. by exists self'.
Qed.

Lemma stop_returned_empty env key during sys self :
  video_processors sys !! key = Some self →
  is_Some (frame_queues (objects sys) !! frame_queue self) →
  (stop env key during sys).2 = Return () →
  ∃ q', frame_queues (objects (stop env key during sys).1) !! frame_queue self
        = Some q'
        ∧ Queue.items q' = [].
Proof.
  intros Hself Hq. rewrite (stop_unfold _ _ _ _ _ Hself). simpl. intros Hret.
  apply stop_run_returns; [by destruct (process_thread self)|done|].
  by destruct (stop_run env self during _ _).2.
Qed.


Lemma stop_returns_after_timeout env key sys self q :
  video_processors sys !! key = Some self →
  frame_queues (objects sys) !! frame_queue self = Some q →
  (stop env key
     (Elapse 2000 :: replicate (2 * length (Queue.items q) + 2) Own) sys).2
  = Return ().
Proof.
  intros Hself Hq. rewrite (stop_unfold _ _ _ _ _ Hself). cbn [fst snd].
  destruct q as [maxsize frames]. cbn [Queue.items].
  replace (2 * length frames + 2)%nat with (S (2 * length frames + 1)) by lia.
  destruct (process_thread self) as [tid|].
  - cbn [replicate stop_run stop_action threads].
    assert (∀ t, join t 2 (0 + Z.of_N 2000) = true) as Hjoin
      by (intros t; unfold join; apply orb_true_r).
    destruct (threads sys !! tid) as [t|]; [rewrite Hjoin|];
      by erewrite stop_run_drains.
  - rewrite replicate_S_end.
    change (Elapse 2000 :: ?l ++ [Own]) with ((Elapse 2000 :: l) ++ [Own]).
    rewrite stop_run_app. cbn [stop_run stop_action].
    by erewrite stop_run_drains.
Qed.




(** A pass that is in progress when [stop] is called goes on after [stop]
    has returned: the worker of camera 1 is before the [put] of its second
    frame when the camera is closed; [stop] gives up waiting for it after two
    seconds, empties the queue and returns; the worker then puts its frame
    into the queue, finds the flag cleared at the head of its loop and
    ends. *)
Example pass_in_progress_across_stop :
  let r := close_camera quiet_env 1 (Elapse 2000 :: replicate 4 Own)
             worker_before_put in
  let queued sys :=
    length ∘ Queue.items <$> frame_queues (objects sys) !! 1 in
  (∃ frame, state <$> threads worker_before_put
            = [InPass (IpLoop walked_twice) (QueuePut frame)])
  ∧ queued worker_before_put = Some 1%nat
  ∧ r.2 = OK
  ∧ running <$> video_processors r.1 !! 1 = Some false
  ∧ queued r.1 = Some 0%nat
  ∧ is_alive <$> threads r.1 = [true]
  ∧ queued (worker_action quiet_env 0 r.1) = Some 1%nat
  ∧ state <$> threads (worker_action quiet_env 0 r.1) = [InIpLoop walked_twice]
  ∧ state <$> threads (run quiet_env [WorkerAction 0; WorkerAction 0] r.1)
    = [Finished].
Proof. split; [eexists|]; vm_compute; done. Qed.

(** ** Who writes what in a status dictionary *)

(** A new empty dictionary changes no entry of any dictionary. *)
Lemma init_dict_entry env camera_id frame_queue st l key :
  dict_entry (init env camera_id frame_queue st).2 l key = dict_entry st l key.
Proof.
  unfold init, dict_entry. simpl.
  destruct (decide (fresh (dom (dicts st)) = l)) as [<-|Hne].
  - rewrite lookup_insert_eq. simpl.
    assert (dicts st !! fresh (dom (dicts st)) = None) as ->
      by (apply not_elem_of_dom, is_fresh).
    done.
  - by rewrite lookup_insert_ne.
Qed.

Lemma get_processor_status_entry env camera_id sys camera_id' key :
  status_entry (get_processor env camera_id sys).1 camera_id' key
  = status_entry sys camera_id' key.
Proof.
  unfold get_processor.
  destruct (video_processors sys !! camera_id); [done|].
  destruct (frame_queues (objects sys) !! camera_id); [|done].
  pose proof (init_dict_entry env camera_id camera_id (objects sys)) as Hinit.
  destruct (init env camera_id camera_id (objects sys)) as [processor st].
  unfold status_entry. simpl in *.
  destruct (camera_status sys !! camera_id') as [l|]; [|done]. apply Hinit.
Qed.

Lemma generate_status_entry camera_id sys camera_id' key :
  status_entry (generate camera_id sys).1 camera_id' key
  = status_entry sys camera_id' key.
Proof.
  unfold generate.
  destruct (frame_queues (objects sys) !! camera_id) as [q|]; [|done].
  destruct (Queue.get_timeout 1 q) as [[frame q']| |]; [|done..].
  by destruct (camera_status sys !! camera_id),
              (video_processors sys !! camera_id).
Qed.

Lemma workers_effect_status_entry sys sys' camera_id key :
  workers_effect sys sys' → key ∈ ["type"; "url"] →
  status_entry sys' camera_id key = status_entry sys camera_id key.
Proof.
  intros [Hstatus _ (Hkeys & _) _] Hkey. unfold status_entry.
  rewrite Hstatus. destruct (camera_status sys !! camera_id) as [l|]; [|done].
  simpl. apply Hkeys.
  repeat (apply elem_of_cons in Hkey as [->|Hkey]); [compute_done..|].
  by apply elem_of_nil in Hkey.
Qed.

(** C8. The status update of a worker writes the entries [count], [fall]
    and [timestamp] of the dictionary [self.status] refers to and nothing else,
    and so does a whole pass of either loop, and each statement of a pass;
    the entries [type] and [url] of a camera's status record change only in a
    request that sets a source ([set_ip], [upload_file]) or closes the
    camera. *)
Theorem worker_writes_count_fall_timestamp_only (env : environment) :
  (∀ people_count fall_detected self st,
     let st' := (write_status env people_count fall_detected self st).1.2 in
     (∀ l key, key ∉ ["count"; "fall"; "timestamp"] →
               dict_entry st' l key = dict_entry st l key)
     ∧ (∀ l, l ≠ status self → dicts st' !! l = dicts st !! l)
     ∧ (is_Some (dicts st !! status self) →
        dict_entry st' (status self) "count" = Some (PInt people_count)
        ∧ dict_entry st' (status self) "fall" = Some (PBool fall_detected)
        ∧ dict_entry st' (status self) "timestamp"
          = Some (PStr (isoformat env (clock st)))))
  ∧ (∀ s self st l key,
       key ∉ ["count"; "fall"; "timestamp"] →
       dict_entry (thread_step env s self st).1.2 l key = dict_entry st l key)
  ∧ (∀ s self st l key,
       key ∉ ["count"; "fall"; "timestamp"] →
       dict_entry (thread_action env s self st).1.2 l key
       = dict_entry st l key)
  ∧ (∀ sys ev camera_id key,
       key ∈ ["type"; "url"] →
       match ev with
       | SetIp _ _ | Upload _ _ | CloseCamera _ _ => True
       | TestFeed _ | Generate _ | WorkerStep _ | WorkerAction _ =>
           status_entry (step env sys ev) camera_id key
           = status_entry sys camera_id key
       end).
Proof.
  split; [|split; [|split]].
  - intros people_count fall_detected self st st'. subst st'.
    split; [|split].
    + apply (one_pass_write_status env people_count fall_detected self st).
    + intros l Hl. rewrite write_status_state. simpl.
      by rewrite lookup_alter_ne.
    + intros [d Hd]. rewrite write_status_state. unfold dict_entry. simpl.
      rewrite lookup_alter_eq, Hd. simpl. split_and!.
      * rewrite !lookup_insert_ne by done. apply lookup_insert_eq.
      * rewrite lookup_insert_ne by done. apply lookup_insert_eq.
      * apply lookup_insert_eq.
  - intros s self st. apply (thread_step_effect env s self st).
  - intros s self st. apply (thread_action_effect env s self st).
  - intros sys ev camera_id key Hkey.
    destruct ev as [| | |c|c|tid|tid]; try done.
    + simpl. unfold test_feed.
      pose proof (get_processor_status_entry env c sys camera_id key) as Hget.
      by destruct (get_processor env c sys) as [sys' [| |]].
    + apply generate_status_entry.
    + simpl. apply workers_effect_status_entry; [|done].
      apply worker_step_effect.
    + simpl. apply workers_effect_status_entry; [|done].
      apply worker_action_effect.
Qed.

Lemma worker_writes_count_fall_timestamp_only_witness :
  status_entry (step quiet_env feed_attached (WorkerStep 0)) 1 "type"
  = status_entry feed_attached 1 "type"
  ∧ dict_entry
      (thread_step quiet_env (InIpLoop initial_positions) example_processor
         (objects initial)).1.2 0%nat "url"
    = dict_entry (objects initial) 0%nat "url".
Proof.
  pose proof (worker_writes_count_fall_timestamp_only quiet_env)
    as (_ & Hpass & _ & Hroutes).
  split.
  - apply (Hroutes feed_attached (WorkerStep 0) 1 "type").
    apply list_elem_of_here.
  - apply (Hpass (InIpLoop initial_positions) example_processor
             (objects initial) 0%nat "url").
    compute_done.
Defined.

(** ** The running statistics over the life of a processor *)















(** C5, as the specification states it, fails: the counters are not
    monotone.  Two files are uploaded for camera 1, so that two workers share
    its processor.  The first worker reads [max_people_count] (0) in its first
    pass, which has one person; before it assigns, the second worker makes two
    passes and raises the maximum to 2; the first worker then assigns
    [max(0, 1)], and the maximum drops from 2 to 1. *)
Lemma interleaved_update_lowers_maximum :
  let sys := second_worker_ahead in
  let sys' := step counting_env sys (WorkerAction 0) in
  length (live_workers 1 sys) = 2%nat
  ∧ (∃ next frame,
       state <$> threads sys !! 0%nat
       = Some (InPass next (WriteMax frame 1 false 0)))
  ∧ max_people_count <$> video_processors sys !! 1 = Some 2
  ∧ max_people_count <$> video_processors sys' !! 1 = Some 1.
Proof. split; [|split; [eexists _, _|]]; vm_compute; done. Qed.



(** ** Exceptions in a pass of a worker *)

(** C3, as the specification states it, fails: with a file of three frames
    and a drawing call that raises on the first one, the first pass of the
    worker ends its thread; the other two frames are never processed and the
    queue stays empty, whatever further passes are scheduled. *)
Lemma annotation_error_ends_worker :
  let sys := run first_frame_fails
               [Upload (Some "a.mp4") 1; WorkerStep 0; WorkerStep 0;
                WorkerStep 0] initial in
  state <$> threads sys = [Died (Error "cv2.error")]
  ∧ is_alive <$> threads sys = [false]
  ∧ Queue.items <$> frame_queues (objects sys) !! 1 = Some []
  ∧ (process_video_file first_frame_fails "uploads/a.mp4" example_processor
       (objects initial)).2 = Raise (Error "cv2.error").
Proof. vm_compute. done. Qed.

(** The loop of the worker stops at the first frame whose processing
    raises. *)
Lemma video_loop_raises env frame rest self st e :
  running self = true →
  (process_frame env frame self st).2 = Raise e →
  (video_loop env (frame :: rest) self st).2 = Raise e.
Proof.
  intros Hrunning Hraise. cbn [video_loop].
  unfold mbind at 1, method_bind at 1, get_self. rewrite Hrunning.
  unfold mbind, method_bind.
  by destruct (process_frame env frame self st) as [[self' st'] [[]|e'|]];
    simpl in *; simplify_eq.
Qed.

Lemma thread_steps_ended env n s self st :
  (∀ cap, s ≠ InVideoLoop cap) → (∀ people, s ≠ InIpLoop people) →
  thread_steps env n s self st = (self, st, s).
Proof.
  intros Hvideo Hip. induction n as [|n IH]; [done|].
  destruct s as [cap|people|frame i moved todo detections fall_detected
                   fall_bbox|next pt| | |e]; simpl; try apply IH.
  - by destruct (Hvideo cap).
  - by destruct (Hip people).
Qed.

(** The passes of a thread over a file, one after the other, are the loop
    of [process_video_file]: the thread ends when the loop returns or raises,
    in the state the loop leaves. *)
Lemma thread_steps_video_loop env fps frames : ∀ self st,
  running self = true →
  thread_steps env (S (length frames)) (InVideoLoop (Capture true fps frames))
    self st
  = let '(self', st', r) := video_loop env frames self st in
    (self', st', ended_by r).
Proof.
  induction frames as [|frame rest IH]; intros self st Hrunning.
  - simpl. by rewrite Hrunning.
  - cbn [length thread_steps thread_step video_loop].
    rewrite Hrunning. cbn [andb isOpened pending CAP_PROP_FPS].
    unfold mbind at 1, method_bind at 1, get_self. rewrite Hrunning.
    unfold mbind, method_bind.
    pose proof (one_pass_process_frame env frame self st) as Hpass.
    destruct (process_frame env frame self st) as [[self' st'] [[]|e|]].
    + apply IH. destruct Hpass. simpl in *. congruence.
    + by apply thread_steps_ended.
    + by apply thread_steps_ended.
Qed.

(** C3, amended. An exception raised in [detect_people] (by the model or
    by a conversion of its answer) is caught there: the frame is processed
    with no detection and the pass ends like any other.  An exception raised
    by the rest of the pass is not caught: it ends the loop and the thread of
    the worker, in the file loop and in the synthetic loop alike, and a
    thread that has ended makes no further pass. *)
Theorem detection_errors_caught_later_errors_end_worker (env : environment) :
  (∀ frame self st m e,
     model self = Some m → run_inference m frame = Raise e →
     process_frame env frame self st
     = publish env frame [] 0 false None self st)
  ∧ (∀ cap frame rest self st e,
       running self = true → isOpened cap = true →
       pending cap = frame :: rest →
       (process_frame env frame self st).2 = Raise e →
       (thread_step env (InVideoLoop cap) self st).2 = Died e
       ∧ (video_loop env (frame :: rest) self st).2 = Raise e)
  ∧ (∀ person_positions self st e,
       running self = true →
       (synthesize_frame env person_positions self st).2 = Raise e →
       (thread_step env (InIpLoop person_positions) self st).2 = Died e)
  ∧ (∀ self st e, thread_step env (Died e) self st = (self, st, Died e))
  ∧ (∀ tid t sys,
       threads sys !! tid = Some t → is_alive t = false →
       worker_step env tid sys = sys).
Proof.
  split_and!.
  - intros frame self st m e Hm Hrun. rewrite process_frame_unfold.
    unfold detect_people. by rewrite Hm, Hrun.
  - intros cap frame rest self st e Hrunning Hopened Hpending Hraise. split.
    + simpl. rewrite Hrunning, Hopened, Hpending. simpl.
      by destruct (process_frame env frame self st) as [[self' st'] [[]|e'|]];
        simpl in *; simplify_eq.
    + by apply video_loop_raises.
  - intros person_positions self st e Hrunning Hraise. simpl.
    rewrite Hrunning.
    by destruct (synthesize_frame env person_positions self st)
      as [[self' st'] [people|e'|]]; simpl in *; simplify_eq.
  - done.
  - intros tid [target s] sys Ht Hdead. unfold worker_step. rewrite Ht. simpl.
    destruct (status_lock_held target (threads sys)); [done|].
    destruct (video_processors sys !! target) as [self|] eqn:Hself; [|done].
    destruct s; try done; simpl; rewrite insert_id, list_insert_id by done;
      by destruct sys.
Qed.

Lemma detection_errors_caught_later_errors_end_worker_witness :
  (thread_step first_frame_fails (InVideoLoop three_frames) example_processor
     (objects initial)).2 = Died (Error "cv2.error")
  ∧ (video_loop first_frame_fails (pending three_frames) example_processor
       (objects initial)).2 = Raise (Error "cv2.error").
Proof.
  pose proof (detection_errors_caught_later_errors_end_worker
                first_frame_fails) as (_ & Hlater & _).
  apply (Hlater three_frames (Image (480, 640) (Decoded 0) []) _
           example_processor (objects initial) (Error "cv2.error"));
    reflexivity.
Defined.

(** ** The states the system can reach *)

Lemma well_formed_initial : well_formed initial.
Proof.
  split; [|split].
  - intros key p Hp. simpl in Hp. by rewrite lookup_empty in Hp.
  - apply (map_Forall_lookup
             (λ _ l, is_Some (dicts (objects initial) !! l))).
    compute_done.
  - intros tid t Ht. simpl in Ht. by rewrite lookup_nil in Ht.
Qed.

(** More dictionaries, the same queues, processors, status references and
    threads: the references keep referring. *)
Lemma well_formed_more_dicts sys sys' :
  (∀ l, is_Some (dicts (objects sys) !! l)
        → is_Some (dicts (objects sys') !! l)) →
  frame_queues (objects sys') = frame_queues (objects sys) →
  video_processors sys' = video_processors sys →
  camera_status sys' = camera_status sys →
  threads sys' = threads sys →
  well_formed sys → well_formed sys'.
Proof.
  intros Hd Hq Hp Hc Ht (Hprocs & Hstatus & Hthreads).
  unfold well_formed. rewrite Hq, Hp, Hc, Ht. split; [|split].
  - intros key p Hkey. destruct (Hprocs key p Hkey) as (? & ? & ? & ?).
    split_and!; auto.
  - intros key l Hl. eauto.
  - done.
Qed.

Lemma well_formed_assign_status camera_id d sys :
  well_formed sys → well_formed (assign_status camera_id d sys).
Proof.
  intros (Hprocs & Hstatus & Hthreads). split; [|split]; simpl.
  - intros key p Hkey. destruct (Hprocs key p Hkey) as (? & ? & ? & ?).
    split_and!; [done..|]. apply lookup_insert_is_Some'. by right.
  - intros key l Hl. apply lookup_insert_is_Some'.
    apply lookup_insert_Some in Hl as [[_ <-]|[_ Hl]]; [by left|].
    right. eauto.
  - done.
Qed.

Lemma well_formed_get_processor env camera_id sys :
  well_formed sys → well_formed (get_processor env camera_id sys).1.
Proof.
  intros Hwf. unfold get_processor.
  destruct (video_processors sys !! camera_id) as [p0|] eqn:Hnone; [done|].
  destruct (frame_queues (objects sys) !! camera_id) as [q|] eqn:Hqueue;
    [|done].
  destruct Hwf as (Hprocs & Hstatus & Hthreads).
  split; [|split]; simpl.
  - intros key p Hkey.
    apply lookup_insert_Some in Hkey as [[<- <-]|[Hne Hkey]]; simpl.
    + split_and!; [done|done|by rewrite Hqueue|]. by rewrite lookup_insert_eq.
    + destruct (Hprocs key p Hkey) as (? & ? & ? & ?).
      split_and!; [done..|]. apply lookup_insert_is_Some'. by right.
  - intros key l Hl. apply lookup_insert_is_Some'. right. eauto.
  - intros tid t Ht. apply lookup_insert_is_Some'. right. eauto.
Qed.

Lemma well_formed_call_start key s
    (m : VideoProcessor → list thread → VideoProcessor * list thread) sys :
  (∀ self threads,
     m self threads
     = (set_process_thread (Some (length threads)) (set_running true self),
        threads ++ [Thread (camera_id self) s])) →
  well_formed sys → well_formed (call_start key m sys).
Proof.
  intros Hm Hwf. unfold call_start.
  destruct (video_processors sys !! key) as [self|] eqn:Hself; [|done].
  rewrite Hm. destruct Hwf as (Hprocs & Hstatus & Hthreads).
  destruct (Hprocs key self Hself) as (Hid & ? & ? & ?).
  split; [|split]; simpl.
  - intros key' p Hkey.
    apply lookup_insert_Some in Hkey as [[<- <-]|[Hne Hkey]]; [done|].
    by apply Hprocs.
  - done.
  - intros tid t Ht. apply lookup_insert_is_Some'.
    apply lookup_app_Some in Ht as [Ht|[_ Ht]]; [right; eauto|].
    apply list_lookup_singleton_Some in Ht as [_ <-]. simpl. by left.
Qed.

Lemma well_formed_workers_effect sys sys' :
  workers_effect sys sys' → well_formed sys → well_formed sys'.
Proof.
  intros [Hc Hp (_ & Hd & Hq) Ht] (Hprocs & Hstatus & Hthreads).
  split; [|split].
  - intros key p' Hkey. specialize (Hp key). rewrite Hkey in Hp.
    inversion Hp as [p ? (Hid & Hqueue & _ & _ & Hst) Heq1 Heq2|]; subst.
    destruct (Hprocs key p (eq_sym Heq1)) as (? & ? & ? & ?).
    rewrite Hid, Hqueue, Hst. split_and!; [done|done|by apply Hq|by apply Hd].
  - intros key l Hl. rewrite Hc in Hl. apply Hd. eauto.
  - intros tid t' Ht'.
    assert (target_self <$> threads sys !! tid = Some (target_self t'))
      as Htarget.
    { by rewrite <- list_lookup_fmap, <- Ht, list_lookup_fmap, Ht'. }
    destruct (threads sys !! tid) as [t|] eqn:Htid; [|done].
    injection Htarget as <-.
    destruct (Hthreads tid t Htid) as [p Hself].
    specialize (Hp (target_self t)). rewrite Hself in Hp.
    inversion Hp. by eexists.
Qed.

Lemma well_formed_stop env key during sys :
  well_formed sys → well_formed (stop env key during sys).1.
Proof.
  intros Hwf.
  destruct (video_processors sys !! key) as [self|] eqn:Hself;
    [|by unfold stop; rewrite Hself].
  rewrite (stop_unfold _ _ _ _ _ Hself). simpl.
  eapply well_formed_workers_effect; [apply stop_run_effect|].
  destruct Hwf as (Hprocs & Hstatus & Hthreads).
  split; [|split]; simpl; [|done|].
  - intros key' p Hkey.
    apply lookup_insert_Some in Hkey as [[<- <-]|[Hne Hkey]];
      [by apply (Hprocs key self)|by apply Hprocs].
  - intros tid t Ht. apply lookup_insert_is_Some'. right. eauto.
Qed.

Lemma well_formed_generate camera_id sys :
  well_formed sys → well_formed (generate camera_id sys).1.
Proof.
  intros Hwf. unfold generate.
  destruct (frame_queues (objects sys) !! camera_id) as [q|]; [|done].
  destruct (Queue.get_timeout 1 q) as [[frame q']| |]; [|done..].
  destruct Hwf as (Hprocs & Hstatus & Hthreads).
  destruct (camera_status sys !! camera_id) as [l|] eqn:Hl,
           (video_processors sys !! camera_id) as [processor|] eqn:Hp; simpl.
  - split; [|split]; simpl; [| |].
    + intros key p Hkey.
      apply lookup_insert_Some in Hkey as [[<- <-]|[Hne Hkey]]; simpl.
      * destruct (Hprocs camera_id processor Hp) as (? & ? & ? & ?).
        split_and!; [done|done| |by eapply Hstatus].
        apply lookup_insert_is_Some'. by left.
      * destruct (Hprocs key p Hkey) as (? & ? & ? & ?).
        split_and!; [done|done| |done]. apply lookup_insert_is_Some'. by right.
    + done.
    + intros tid t Ht. apply lookup_insert_is_Some'. right. eauto.
  - split; [|split]; simpl; [|done..].
    intros key p Hkey. destruct (Hprocs key p Hkey) as (? & ? & ? & ?).
    split_and!; [done|done| |done]. apply lookup_insert_is_Some'. by right.
  - split; [|split]; simpl; [|done..].
    intros key p Hkey. destruct (Hprocs key p Hkey) as (? & ? & ? & ?).
    split_and!; [done|done| |done]. apply lookup_insert_is_Some'. by right.
  - split; [|split]; simpl; [|done..].
    intros key p Hkey. destruct (Hprocs key p Hkey) as (? & ? & ? & ?).
    split_and!; [done|done| |done]. apply lookup_insert_is_Some'. by right.
Qed.

Lemma well_formed_start env key s
    (m : VideoProcessor → list thread → VideoProcessor * list thread) sys :
  (∀ self threads,
     m self threads
     = (set_process_thread (Some (length threads)) (set_running true self),
        threads ++ [Thread (camera_id self) s])) →
  well_formed sys →
  well_formed
    match get_processor env key sys with
    | (sys, Return processor) => (call_start processor m sys, OK)
    | (sys, Raise e) => (sys, InternalServerError e)
    | (sys, Waits) => (sys, NoResponse)
    end.1.
Proof.
  intros Hm Hwf. apply (well_formed_get_processor env key) in Hwf.
  destruct (get_processor env key sys) as [sys1 [processor|e|]]; simpl in *;
    [|done..].
  by apply (well_formed_call_start _ s).
Qed.

(** Every step keeps the references referring. *)
Lemma well_formed_step env sys ev :
  well_formed sys → well_formed (step env sys ev).
Proof.
  intros Hwf. destruct ev as [c ip|file c|c during|c|c|tid|tid]; simpl.
  - unfold set_ip. destruct ip as [[|a ip]|]; [done| |done].
    unfold now. cbv beta iota zeta.
    apply (well_formed_start _ _ (InIpLoop initial_positions)); [done|].
    apply well_formed_assign_status.
    by apply (well_formed_more_dicts sys).
  - unfold upload_file. destruct file as [[|a file]|]; [done| |done].
    unfold now. cbv beta iota zeta.
    eapply (well_formed_start _ _ (InVideoLoop _)); [done|].
    apply well_formed_assign_status.
    by apply (well_formed_more_dicts sys).
  - unfold close_camera. case_bool_decide.
    + pose proof (well_formed_stop env c during _
                    (well_formed_assign_status c offline_status sys Hwf))
        as Hstop.
      by destruct (stop env c during _) as [sys' [[]|e|]].
    + by apply well_formed_assign_status.
  - unfold test_feed.
    pose proof (well_formed_get_processor env c sys Hwf) as Hget.
    by destruct (get_processor env c sys) as [sys' [| |]].
  - by apply well_formed_generate.
  - apply (well_formed_workers_effect sys); [apply worker_step_effect|done].
  - apply (well_formed_workers_effect sys); [apply worker_action_effect|done].
Qed.

Lemma well_formed_run env evs : ∀ sys,
  well_formed sys → well_formed (run env evs sys).
Proof.
  induction evs as [|ev evs IH]; intros sys Hwf; [done|].
  apply IH. by apply well_formed_step.
Qed.

(** ** Starting a source while a worker is running *)

(** C2, as the specification states it, fails: after a second [set_ip] for
    camera 1 while its first worker is running, two workers of camera 1 are
    alive, and a pass of either of them adds a frame to the queue of
    camera 1. *)
Lemma second_start_leaves_two_workers :
  let sys := run quiet_env
               [SetIp 1 (Some "10.0.0.1"); WorkerStep 0;
                SetIp 1 (Some "10.0.0.2")] initial in
  let queued sys :=
    length ∘ Queue.items <$> frame_queues (objects sys) !! 1 in
  length (live_workers 1 sys) = 2%nat
  ∧ queued sys = Some 1%nat
  ∧ queued (worker_step quiet_env 0 sys) = Some 2%nat
  ∧ queued (worker_step quiet_env 1 sys) = Some 2%nat
  ∧ queued (run quiet_env [WorkerStep 0; WorkerStep 1] sys) = Some 3%nat.
Proof. vm_compute. done. Qed.

Lemma get_processor_outcome env camera_id sys :
  let r := get_processor env camera_id sys in
  threads r.1 = threads sys
  ∧ (∀ key p, video_processors sys !! key = Some p →
              video_processors r.1 !! key = Some p)
  ∧ ((∃ e, r.2 = Raise e)
     ∨ (r.2 = Return camera_id
        ∧ is_Some (video_processors r.1 !! camera_id))).
Proof.
  unfold get_processor.
  destruct (video_processors sys !! camera_id) as [p|] eqn:Hp; simpl.
  { split; [done|]. split; [done|]. right. by rewrite Hp. }
  destruct (frame_queues (objects sys) !! camera_id); simpl.
  - destruct (init env camera_id camera_id (objects sys)) as [processor st].
    simpl. split; [done|]. split.
    + intros key p Hkey. rewrite lookup_insert_ne by congruence. done.
    + right. rewrite lookup_insert_eq. by split.
  - split; [done|]. split; [done|]. left. by eexists.
Qed.

(** The tail that the two routes share: look the processor up, start it. *)
Lemma start_after_get_processor env key s
    (m : VideoProcessor → list thread → VideoProcessor * list thread) sys0 sys :
  (∀ self threads,
     m self threads
     = (set_process_thread (Some (length threads)) (set_running true self),
        threads ++ [Thread (camera_id self) s])) →
  threads sys = threads sys0 →
  video_processors sys = video_processors sys0 →
  start_effect key sys0
    match get_processor env key sys with
    | (sys, Return processor) => (call_start processor m sys, OK)
    | (sys, Raise e) => (sys, InternalServerError e)
    | (sys, Waits) => (sys, NoResponse)
    end s.
Proof.
  intros Hm Hthreads Hprocs.
  destruct (get_processor_outcome env key sys) as (Ht & Hp & Hr).
  rewrite Hthreads in Ht. rewrite Hprocs in Hp.
  destruct (get_processor env key sys) as [sys1 r]. simpl in *.
  destruct Hr as [[e ->]|[-> [self Hself]]].
  { split; [simpl; by rewrite Ht|]. split; [|done].
    intros key' p Hkey Hrun. exists p. split; [by apply Hp|done]. }
  unfold call_start. rewrite Hself, Hm. simpl. split; [|split].
  - intros tid t Htid. simpl. rewrite Ht. by apply lookup_app_l_Some.
  - intros key' p Hkey Hrun. simpl.
    destruct (decide (key = key')) as [<-|Hne].
    + rewrite lookup_insert_eq. by eexists.
    + rewrite lookup_insert_ne by done. exists p. split; [by apply Hp|done].
  - intros _. simpl. eexists. rewrite lookup_insert_eq. split; [done|].
    simpl. by rewrite Ht.
Qed.

(** What a request that starts a source does, for the two routes. *)
Lemma set_ip_start_effect env camera_id ip sys :
  start_effect camera_id sys (set_ip env camera_id ip sys)
    (InIpLoop initial_positions).
Proof.
  unfold set_ip. destruct ip as [[|a ip]|];
    [|unfold now; cbv beta iota zeta; by apply start_after_get_processor|];
    (split; [done|]; split; [|done]; intros key p Hkey Hrun; by exists p).
Qed.

Lemma upload_file_start_effect env file camera_id sys :
  ∃ file_path,
    start_effect camera_id sys (upload_file env file camera_id sys)
      (InVideoLoop (open_capture env file_path)).
Proof.
  unfold upload_file. destruct file as [[|a file]|];
    [exists ""|unfold now; cbv beta iota zeta; eexists;
               by apply start_after_get_processor|exists ""];
    (split; [done|]; split; [|done]; intros key p Hkey Hrun; by exists p).
Qed.

(** A start that succeeds adds one live worker to those of the camera's
    processor, and removes none. *)
Lemma start_adds_live_worker key sys r s :
  start_effect key sys r s → r.2 = OK → at_head s = true →
  ∃ p, video_processors r.1 !! key = Some p
       ∧ live_workers (camera_id p) r.1
         = live_workers (camera_id p) sys ++ [Thread (camera_id p) s].
Proof.
  intros (_ & _ & Hnew) Hok Hhead.
  destruct (Hnew Hok) as (p & Hp & _ & _ & Hthreads).
  exists p. split; [done|]. unfold live_workers. rewrite Hthreads.
  rewrite filter_app. f_equal. rewrite filter_cons_True; [done|].
  split; [done|]. by destruct s.
Qed.

Lemma draw_detections_state env frame detections people_count fall_detected
    fall_bbox self st :
  let r := draw_detections env frame detections people_count fall_detected
             fall_bbox self st in
  dicts r.1.2 = dicts st ∧ frame_queues r.1.2 = frame_queues st
  ∧ status r.1.1 = status self ∧ frame_queue r.1.1 = frame_queue self.
Proof.
  unfold draw_detections, mbind, method_bind, lift.
  destruct (for_each detections _ frame) as [frame_copy| |]; [|done..].
  destruct (draw_statistics_state env frame_copy people_count fall_detected
              self st) as (Hself & Hd & Hq).
  destruct (draw_statistics env frame_copy people_count fall_detected self st)
    as [[self' st'] [frame'|e|]]; simpl in *; by subst self'.
Qed.

(** When the end of a pass returns, one frame has been pushed into the
    queue the processor refers to. *)
Lemma publish_returns env frame detections people_count fall_detected
    fall_bbox self st self' st' :
  publish env frame detections people_count fall_detected fall_bbox self st
  = (self', st', Return ()) →
  ∃ q processed_frame q',
    frame_queues st !! frame_queue self = Some q
    ∧ enqueue q processed_frame = Return q'
    ∧ frame_queues st' = <[frame_queue self := q']> (frame_queues st).
Proof.
  unfold publish. cbv zeta. unfold mbind, method_bind.
  destruct (draw_detections_state env frame detections people_count
              fall_detected fall_bbox self st) as (Hd & Hq & Hstatus & Hqueue).
  destruct (draw_detections env frame detections people_count fall_detected
              fall_bbox self st) as [[self1 st1] [processed_frame|e|]];
    simpl in Hd, Hq, Hstatus, Hqueue; [|done..].
  rewrite write_status_state.
  unfold push_frame, mbind, method_bind, get_self, get_store, lift, put_store.
  cbn [frame_queues]. rewrite Hq, Hqueue.
  destruct (frame_queues st !! frame_queue self) as [q|] eqn:Hlookup; [|done].
  destruct (enqueue q processed_frame) as [q'|e|] eqn:Hpush; [|done..].
  intros [= <- <-]. by exists q, processed_frame, q'.
Qed.

Lemma simulate_people_state env person_positions :
  ∀ i detections fall_detected fall_bbox self st,
  let r := simulate_people env i person_positions detections fall_detected
             fall_bbox self st in
  r.1.1 = self ∧ dicts r.1.2 = dicts st
  ∧ frame_queues r.1.2 = frame_queues st.
Proof.
  induction person_positions as [|person rest IH]; intros; [done|].
  subst r. cbn [simulate_people].
  unfold mbind at 1, method_bind at 1.
  unfold simulate_person, mbind, method_bind, get_store, put_store, mret,
    method_ret, np_random.
  cbv beta iota zeta.
  match goal with
  | |- context [if Person.fallen ?p then _ else _] => destruct (Person.fallen p)
  end;
    match goal with
    | |- context [simulate_people env ?i rest ?ds ?fd ?fb self ?st1] =>
        destruct (IH i ds fd fb self st1) as (H1 & H2 & H3);
        destruct (simulate_people env i rest ds fd fb self st1)
          as [[self' st'] [[[[]]]| |]]
    end; done.
Qed.

(** A worker that is at the head of its loop after a pass in one go has
    completed the pass: it has pushed one frame into the queue its processor
    refers to. *)
Lemma thread_step_pushes env s self st self' st' s' :
  thread_step env s self st = (self', st', s') → at_head s' = true →
  ∃ q processed_frame q',
    frame_queues st !! frame_queue self = Some q
    ∧ enqueue q processed_frame = Return q'
    ∧ frame_queues st' = <[frame_queue self := q']> (frame_queues st).
Proof.
  destruct s as [cap|person_positions|frame i moved todo detections
                   fall_detected fall_bbox|next pt| | |e]; cbn [thread_step];
    try (by intros [= <- <- <-]).
  - destruct (running self && isOpened cap); [|by intros [= <- <- <-]].
    destruct (pending cap) as [|frame rest]; [by intros [= <- <- <-]|].
    rewrite process_frame_unfold.
    destruct (detect_people self frame)
      as [[[frame' people_count] detections]| |];
      [|by intros [= <- <- <-]..].
    destruct (detect_fall self detections frame')
      as [[fall_detected fall_bbox]| |]; [|by intros [= <- <- <-]..].
    destruct (publish env frame' detections people_count fall_detected
                fall_bbox self st) as [[self1 st1] [[]|e|]] eqn:Hpub;
      [|by intros [= <- <- <-]..].
    intros [= <- <- <-] _. by eapply publish_returns.
  - destruct (running self); [|by intros [= <- <- <-]].
    unfold synthesize_frame, mbind, method_bind, lift, mret, method_ret.
    destruct (cv2_call env _ _) as [frame| |]; [|by intros [= <- <- <-]..].
    destruct (simulate_people_state env person_positions 0 [] false None
                self st) as (Hself & Hd & Hq).
    destruct (simulate_people env 0 person_positions [] false None self st)
      as [[self1 st1] [[[[people detections] fall_detected] fall_bbox]| |]];
      [|by intros [= <- <- <-]..].
    simpl in Hself, Hd, Hq. subst self1.
    destruct (publish env frame detections _ fall_detected fall_bbox self st1)
      as [[self2 st2] [[]|e|]] eqn:Hpub; [|by intros [= <- <- <-]..].
    intros [= <- <- <-] _. rewrite <- Hq. by eapply publish_returns.
Qed.

Lemma worker_step_pushes env tid sys t p t' :
  threads sys !! tid = Some t →
  video_processors sys !! target_self t = Some p →
  status_lock_held (target_self t) (threads sys) = false →
  threads (worker_step env tid sys) !! tid = Some t' →
  at_head (state t') = true →
  ∃ q processed_frame q',
    frame_queues (objects sys) !! frame_queue p = Some q
    ∧ enqueue q processed_frame = Return q'
    ∧ frame_queues (objects (worker_step env tid sys)) !! frame_queue p
      = Some q'.
Proof.
  intros Ht Hp Hfree. unfold worker_step. rewrite Ht, Hfree, Hp.
  destruct (thread_step env (state t) p (objects sys)) as [[self' st'] s']
    eqn:Hstep.
  simpl. rewrite list_lookup_insert_eq by by eapply lookup_lt_Some.
  intros [= <-] Hhead. simpl in Hhead.
  destruct (thread_step_pushes _ _ _ _ _ _ _ Hstep Hhead)
    as (q & frame & q' & Hq & Hpush & Hqueues).
  exists q, frame, q'. split; [done|]. split; [done|].
  rewrite Hqueues. apply lookup_insert_eq.
Qed.

Lemma flags_kept_refl sys : flags_kept sys sys.
Proof. intros key p Hp Hrun. by exists p. Qed.

Lemma workers_effect_flags sys sys' :
  workers_effect sys sys' → flags_kept sys sys'.
Proof.
  intros [_ Hprocs _ _] key p Hp Hrun. specialize (Hprocs key).
  rewrite Hp in Hprocs.
  inversion Hprocs as [? p' (_ & _ & Hrunning & _) Heq1 Heq2|]; subst.
  exists p'. split; [done|]. congruence.
Qed.

(** Only [close_camera], which calls [stop], clears a [running] flag. *)
Lemma step_flags env sys ev :
  (∀ camera_id during, ev ≠ CloseCamera camera_id during) →
  flags_kept sys (step env sys ev).
Proof.
  destruct ev as [c ip|file c|c during|c|c|tid|tid]; simpl; intros Hev.
  - by destruct (set_ip_start_effect env c ip sys) as (_ & Hflags & _).
  - by destruct (upload_file_start_effect env file c sys)
      as (file_path & _ & Hflags & _).
  - by destruct (Hev c during).
  - unfold test_feed.
    destruct (get_processor_outcome env c sys) as (_ & Hp & _).
    intros key p Hkey Hrun. exists p. split; [|done].
    destruct (get_processor env c sys) as [sys' [| |]]; by apply Hp.
  - unfold generate.
    destruct (frame_queues (objects sys) !! c) as [q|];
      [|apply flags_kept_refl].
    destruct (Queue.get_timeout 1 q) as [[frame q']| |];
      [|apply flags_kept_refl..].
    destruct (camera_status sys !! c) as [l|],
             (video_processors sys !! c) as [processor|] eqn:Hp; simpl;
      try (intros key p Hkey Hrun; by exists p).
    intros key p Hkey Hrun. simpl. destruct (decide (c = key)) as [<-|Hne].
    + rewrite lookup_insert_eq. eexists. split; [done|].
      assert (p = processor) as -> by congruence. done.
    + rewrite lookup_insert_ne by done. by exists p.
  - apply workers_effect_flags, worker_step_effect.
  - apply workers_effect_flags, worker_action_effect.
Qed.

(** C2, amended. A new start for a camera ([set_ip] or [upload_file]) stops
    no worker: every thread started before is left in its state and no
    [running] flag is cleared, and when the request succeeds one more worker
    thread is started for the processor of the camera, so that the live
    workers of that processor are those there were and the new one.  No
    request other than [close_camera], no pass of a feed and no step of a
    worker clears a [running] flag.  Every pass a worker completes in one
    go adds its frame to the queue its processor refers to, which in every
    state the system reaches is the queue of the camera the processor is
    stored under: the workers of one camera push into the same queue. *)
Theorem start_does_not_stop_earlier_workers (env : environment)
    (camera : Z) (sys : system) :
  (∀ ip, start_effect camera sys (set_ip env camera ip sys)
           (InIpLoop initial_positions))
  ∧ (∀ file, ∃ file_path,
       start_effect camera sys (upload_file env file camera sys)
         (InVideoLoop (open_capture env file_path)))
  ∧ (∀ ip,
       let r := set_ip env camera ip sys in
       r.2 = OK →
       ∃ p, video_processors r.1 !! camera = Some p
            ∧ live_workers (camera_id p) r.1
              = live_workers (camera_id p) sys
                  ++ [Thread (camera_id p)
                        (InIpLoop initial_positions)])
  ∧ (∀ file,
       let r := upload_file env file camera sys in
       r.2 = OK →
       ∃ p file_path,
         video_processors r.1 !! camera = Some p
         ∧ live_workers (camera_id p) r.1
           = live_workers (camera_id p) sys
               ++ [Thread (camera_id p)
                     (InVideoLoop (open_capture env file_path))])
  ∧ (∀ ev key p,
       video_processors sys !! key = Some p → running p = true →
       match ev with
       | CloseCamera _ _ => True
       | _ => ∃ p', video_processors (step env sys ev) !! key = Some p'
                    ∧ running p' = true
       end)
  ∧ (∀ tid t p t',
       threads sys !! tid = Some t →
       video_processors sys !! target_self t = Some p →
       status_lock_held (target_self t) (threads sys) = false →
       threads (worker_step env tid sys) !! tid = Some t' →
       at_head (state t') = true →
       ∃ q processed_frame q',
         frame_queues (objects sys) !! frame_queue p = Some q
         ∧ enqueue q processed_frame = Return q'
         ∧ frame_queues (objects (worker_step env tid sys)) !! frame_queue p
           = Some q')
  ∧ (∀ evs key p,
       video_processors (run env evs initial) !! key = Some p →
       camera_id p = key ∧ frame_queue p = key
       ∧ is_Some (frame_queues (objects (run env evs initial)) !! key)).
Proof.
  split_and!.
  - intros ip. apply set_ip_start_effect.
  - intros file. apply upload_file_start_effect.
  - intros ip r Hok.
    by apply (start_adds_live_worker camera sys r
                (InIpLoop initial_positions) (set_ip_start_effect _ _ _ _)).
  - intros file r Hok.
    destruct (upload_file_start_effect env file camera sys)
      as [file_path Hstart].
    destruct (start_adds_live_worker camera sys r _ Hstart Hok)
      as (p & Hp & Hlive); [done|].
    by exists p, file_path.
  - intros ev key p Hp Hrun.
    pose proof (step_flags env sys ev) as Hflags. unfold flags_kept in Hflags.
    destruct ev as [c ip|file c|c during|c|c|tid|tid]; [| |done|..];
      by apply (λ H, Hflags H key p).
  - intros tid t p t'. apply worker_step_pushes.
  - intros evs key p Hp.
    destruct (well_formed_run env evs initial well_formed_initial)
      as (Hprocs & _).
    destruct (Hprocs key p Hp) as (? & ? & ? & _). done.
Qed.

Lemma start_does_not_stop_earlier_workers_witness :
  ∃ p, video_processors
         (set_ip quiet_env 1 (Some "10.0.0.2") one_worker_running).1 !! 1
       = Some p
       ∧ running p = true
       ∧ process_thread p = Some (length (threads one_worker_running))
       ∧ threads (set_ip quiet_env 1 (Some "10.0.0.2") one_worker_running).1
         = threads one_worker_running
             ++ [Thread (camera_id p) (InIpLoop initial_positions)].
Proof.
  destruct (start_does_not_stop_earlier_workers quiet_env 1
              one_worker_running) as [Hset _].
  destruct (Hset (Some "10.0.0.2")) as (_ & _ & Hnew).
  apply Hnew. vm_compute. reflexivity.
Defined.

(** In every state the system reaches from its initial state, whatever the
    workers were doing, the queue of an existing processor is there, so that
    [stop] clears its flag and returns, two seconds later at the latest if
    no worker adds a frame meanwhile, with the queue of its camera empty. *)
Corollary stop_in_reachable_state env evs key self :
  let sys := run env evs initial in
  video_processors sys !! key = Some self →
  ∃ q, frame_queues (objects sys) !! key = Some q
       ∧ let r := stop env key
                    (Elapse 2000
                       :: replicate (2 * length (Queue.items q) + 2) Own) sys in
         r.2 = Return ()
         ∧ (∃ self', video_processors r.1 !! key = Some self'
                     ∧ running self' = false)
         ∧ ∃ q', frame_queues (objects r.1) !! key = Some q'
                 ∧ Queue.items q' = [].
Proof.
  intros sys Hself.
  destruct (well_formed_run env evs initial well_formed_initial)
    as (Hprocs & _).
  destruct (Hprocs key self Hself) as (_ & Hqueue & [q Hq] & _).
  clear Hprocs. subst key. exists q. split; [done|].
  pose proof (stop_returns_after_timeout env _ sys self q Hself Hq) as Hret.
  split; [done|]. split.
  - destruct (stop_processor env (frame_queue self)
                (Elapse 2000 :: replicate (2 * length (Queue.items q) + 2) Own)
                sys self Hself) as (self' & Hself' & (_ & _ & Hrunning & _)).
    by exists self'.
  - apply stop_returned_empty; [done|by eexists|done].
Qed.
